(** * Configuration loading and pretty log handling of kfreiman/x

    A shallow embedding of
    - [config.Load] and its functional options (src/config/config.go),
    - the variant of [config.Load] that stats [./.env] before loading it
      (second file of src/unnamed/part_000),
    - [PrettyHandler.Handle] (src/logging/logger.go).

    [Load] orchestrates four third-party packages (godotenv, env, go-defaults,
    validator).  They are not part of the repository: [Load] is written over
    an interface of collaborators, and a reference implementation of that
    interface follows the boundaries the specification gives for them. *)

From Stdlib Require Import ZArith String Ascii List DecimalString.
From stdpp Require Import base option list gmap strings.

Local Open Scope string_scope.
Local Open Scope Z_scope.

(** ** Go values of the kinds the configuration structs use *)

Inductive kind := KString | KInt | KBool.

Inductive value :=
| VString (s : string)
| VInt (n : Z)
| VBool (b : bool).

Definition zero (k : kind) : value :=
  match k with
  | KString => VString EmptyString
  | KInt => VInt 0
  | KBool => VBool false
  end.

Definition is_zero (v : value) : bool :=
  match v with
  | VString EmptyString => true
  | VString _ => false
  | VInt n => Z.eqb n 0
  | VBool b => negb b
  end.

(** A struct field with its tags: [env:"..."], [default:"..."] and
    [validate:"required"]. *)
Record FieldDecl := {
  Name : string;
  Kind : kind;
  envTag : string;
  defaultTag : option string;
  required : bool
}.

Record Field := { decl : FieldDecl; val : value }.

Definition set_val (f : Field) (v : value) : Field :=
  {| decl := decl f; val := v |}.

(** What a caller can pass as [dest interface{}]. *)
Inductive Dest :=
| Nil
| StructVal (tname : string) (fs : list Field)
| PtrStruct (tname : string) (fs : list Field)
| PtrOther.

Definition is_struct_ptr (d : Dest) : bool :=
  match d with PtrStruct _ _ => true | _ => false end.

Definition fields_of (d : Dest) : list Field :=
  match d with
  | StructVal _ fs | PtrStruct _ fs => fs
  | _ => []
  end.

Fixpoint find_field (n : string) (fs : list Field) : option value :=
  match fs with
  | [] => None
  | f :: fs' => if String.eqb (Name (decl f)) n then Some (val f) else find_field n fs'
  end.

Definition field_value (n : string) (d : Dest) : option value :=
  find_field n (fields_of d).

(** ** Errors *)

(** The two failures of [strconv]. *)
Inductive NumError := ErrSyntax | ErrRange.

(** One failed conversion of the decoder: the field, its type, the literal
    and the cause. *)
Record ParseError := {
  pe_field : string;
  pe_kind : kind;
  pe_literal : string;
  pe_cause : NumError
}.

(** The error kinds of the pipeline (specification, section 7), with the
    error the validator gives for an argument that is no struct.  None of
    the packages [Load] calls produces a [DefaultError]. *)
Inductive error :=
| ShapeError
| FileLoadError (msg : string)
| DecodeError (errs : list ParseError)
| DefaultError (msg : string)
| ValidationError (tname : string) (failed : list string)
| InvalidValidationError.

Definition dq : string := String (ascii_of_nat 34) EmptyString.
Definition nl : string := String (ascii_of_nat 10) EmptyString.

Definition kind_name (k : kind) : string :=
  match k with KString => "string" | KInt => "int" | KBool => "bool" end.

Definition strconv_name (k : kind) : string :=
  match k with KString => "string" | KInt => "strconv.ParseInt" | KBool => "strconv.ParseBool" end.

Definition cause_msg (c : NumError) : string :=
  match c with ErrSyntax => "invalid syntax" | ErrRange => "value out of range" end.

Definition parse_error_msg (e : ParseError) : string :=
  "parse error on field " ++ dq ++ pe_field e ++ dq
  ++ " of type " ++ dq ++ kind_name (pe_kind e) ++ dq
  ++ ": " ++ strconv_name (pe_kind e) ++ ": parsing " ++ dq ++ pe_literal e ++ dq
  ++ ": " ++ cause_msg (pe_cause e).

Definition field_error_msg (tname n : string) : string :=
  "Key: '" ++ tname ++ "." ++ n ++ "' Error:Field validation for '" ++ n
  ++ "' failed on the 'required' tag".

Fixpoint join (sep : string) (l : list string) : string :=
  match l with
  | [] => EmptyString
  | [x] => x
  | x :: l' => x ++ sep ++ join sep l'
  end.

(** The message of an error, as the [Error()] method renders it. *)
Definition Error (e : error) : string :=
  match e with
  | ShapeError => "env: expected a pointer to a Struct"
  | FileLoadError msg => msg
  | DecodeError errs => "env: " ++ join "; " (map parse_error_msg errs)
  | DefaultError msg => msg
  | ValidationError tname failed => join nl (map (field_error_msg tname) failed)
  | InvalidValidationError => "validator: (nil)"
  end.

(** [strings.Contains]. *)
Fixpoint contains (s sub : string) : bool :=
  String.prefix sub s ||
  match s with
  | EmptyString => false
  | String _ s' => contains s' sub
  end.

(** ** The process: environment, working directory, log and call trace *)

(** The file [.env] of the working directory: missing, readable with its
    entries in order, or present but unreadable or malformed. *)
Inductive envFile :=
| Absent
| Present (entries : list (string * string))
| Unreadable (msg : string).

(** The calls [Load] makes into the imported packages. *)
Inductive Step := StepFile | StepDecode | StepDefaults | StepValidate.

(** The state of the process around a call of [Load]: the environment
    variables, the file, the messages logged at debug level, and the calls
    made so far, in order. *)
Record Proc := {
  environ : gmap string string;
  dotenv : envFile;
  debugLog : list string;
  calls : list Step
}.

Definition called (c : Step) (p : Proc) : Proc :=
  {| environ := environ p; dotenv := dotenv p; debugLog := debugLog p;
     calls := calls p ++ [c] |}.

Definition with_environ (e : gmap string string) (p : Proc) : Proc :=
  {| environ := e; dotenv := dotenv p; debugLog := debugLog p; calls := calls p |}.

(** [slog.Debug(msg)] *)
Definition slog_Debug (msg : string) (p : Proc) : Proc :=
  {| environ := environ p; dotenv := dotenv p; debugLog := debugLog p ++ [msg];
     calls := calls p |}.

(** ** Options (config.go, lines 10-34) *)

Record configOptions := {
  prefix : string;
  skipEnv : bool;
  skipValid : bool
}.

Definition Option := configOptions -> configOptions.

Definition WithPrefix (p : string) : Option :=
  fun o => {| prefix := p; skipEnv := skipEnv o; skipValid := skipValid o |}.

Definition SkipEnvFile : Option :=
  fun o => {| prefix := prefix o; skipEnv := true; skipValid := skipValid o |}.

Definition SkipValidation : Option :=
  fun o => {| prefix := prefix o; skipEnv := skipEnv o; skipValid := true |}.

(** [&configOptions{}] *)
Definition zeroOptions : configOptions :=
  {| prefix := EmptyString; skipEnv := false; skipValid := false |}.

(** [for _, opt := range opts { opt(options) }] *)
Definition applyOptions (opts : list Option) : configOptions :=
  fold_left (fun o opt => opt o) opts zeroOptions.

(** The options a caller can build: [configOptions] is unexported, so the
    three constructors are the only source of [Option] values. *)
Inductive OptionKind := OWithPrefix (p : string) | OSkipEnvFile | OSkipValidation.

Definition option_of (k : OptionKind) : Option :=
  match k with
  | OWithPrefix p => WithPrefix p
  | OSkipEnvFile => SkipEnvFile
  | OSkipValidation => SkipValidation
  end.

Definition is_WithPrefix (k : OptionKind) : bool :=
  match k with OWithPrefix _ => true | _ => false end.

(** ** The collaborators of [Load]

    The four imported packages, at the signature [Load] uses them with.
    [env.ParseWithOptions] returns the destination as it has left it (it
    writes through the pointer) next to its error; [defaults.SetDefaults]
    has no result besides the destination. *)
Record Collaborators := {
  godotenv_Load : envFile -> gmap string string -> error + gmap string string;
  env_ParseWithOptions : Dest -> string -> gmap string string -> Dest * option error;
  defaults_SetDefaults : Dest -> Dest;
  validator_Struct : Dest -> option error
}.

(** The same collaborators with another validator. *)
Definition with_validator (c : Collaborators) (v : Dest -> option error) : Collaborators :=
  {| godotenv_Load := godotenv_Load c;
     env_ParseWithOptions := env_ParseWithOptions c;
     defaults_SetDefaults := defaults_SetDefaults c;
     validator_Struct := v |}.

(** A state and error monad over the process and the destination: a Go
    function that returns [error] and writes through [dest]. *)
Definition M (A : Type) : Type := Proc * Dest -> (error + A) * (Proc * Dest).

Definition ret {A} (a : A) : M A := fun s => (inr a, s).

Definition bind {A B} (m : M A) (k : A -> M B) : M B :=
  fun s =>
    match m s with
    | (inl e, s') => (inl e, s')
    | (inr a, s') => k a s'
    end.

Declare Scope go_scope.
Delimit Scope go_scope with go.
Notation "m ;; k" := (bind m (fun _ => k))
  (at level 100, k at level 200, right associativity) : go_scope.

(** The value of a Go [error] result: [nil] or the error. *)
Definition as_error {A} (r : (error + A) * (Proc * Dest)) : option error * (Proc * Dest) :=
  match r with
  | (inl e, s) => (Some e, s)
  | (inr _, s) => (None, s)
  end.

Section Loader.
Context (c : Collaborators).

(** [godotenv.Load()] *)
Definition call_godotenv : M unit := fun '(p, d) =>
  let p := called StepFile p in
  match godotenv_Load c (dotenv p) (environ p) with
  | inl e => (inl e, (p, d))
  | inr e' => (inr tt, (with_environ e' p, d))
  end.

(** [env.ParseWithOptions(dest, env.Options{Prefix: pre})] *)
Definition call_ParseWithOptions (pre : string) : M unit := fun '(p, d) =>
  let p := called StepDecode p in
  let '(d', r) := env_ParseWithOptions c d pre (environ p) in
  match r with
  | Some e => (inl e, (p, d'))
  | None => (inr tt, (p, d'))
  end.

(** [defaults.SetDefaults(dest)] *)
Definition call_SetDefaults : M unit := fun '(p, d) =>
  (inr tt, (called StepDefaults p, defaults_SetDefaults c d)).

(** [validator.New().Struct(dest)] *)
Definition call_validate : M unit := fun '(p, d) =>
  let p := called StepValidate p in
  match validator_Struct c d with
  | Some e => (inl e, (p, d))
  | None => (inr tt, (p, d))
  end.

(** Steps 2-4, common to both versions of [Load]. *)
Definition decode_onward (options : configOptions) : M unit :=
  (call_ParseWithOptions (prefix options) ;;
   call_SetDefaults ;;
   if negb (skipValid options) then call_validate else ret tt)%go.

(** [Load] of src/config/config.go. *)
Definition Load (d : Dest) (opts : list Option) (p : Proc) : option error * (Proc * Dest) :=
  let options := applyOptions opts in
  as_error
    (((if negb (skipEnv options) then call_godotenv else ret tt) ;;
      decode_onward options)%go (p, d)).

(** The environment the decoder gets to read: the process environment,
    after the file loader when it runs. *)
Definition env_for_decode (o : configOptions) (p : Proc) : error + gmap string string :=
  if skipEnv o then inr (environ p)
  else godotenv_Load c (dotenv p) (environ p).

(** The collaborators called up to and including the decoder. *)
Definition calls_to_decode (o : configOptions) : list Step :=
  if skipEnv o then [StepDecode] else [StepFile; StepDecode].

End Loader.

(** The other version of [Load] (src/unnamed/part_000, lines 240-275). *)
Module StatFirst.
Section Loader.
Context (c : Collaborators).

(** [os.IsNotExist(err)] for the result of [os.Stat("./.env")]. *)
Definition stat_IsNotExist (p : Proc) : bool :=
  match dotenv p with Absent => true | _ => false end.

(** Lines 246-255: stat the file, log its absence, load it otherwise. *)
Definition stat_then_godotenv : M unit := fun '(p, d) =>
  if stat_IsNotExist p
  then (inr tt, (slog_Debug "env file does not exists" p, d))
  else call_godotenv c (p, d).

Definition Load (d : Dest) (opts : list Option) (p : Proc) : option error * (Proc * Dest) :=
  let options := applyOptions opts in
  as_error
    (((if negb (skipEnv options) then stat_then_godotenv else ret tt) ;;
      decode_onward c options)%go (p, d)).

End Loader.
End StatFirst.

(** ** Reference collaborators

    The imported packages, at the boundaries the specification draws for
    them (section 6), with the conversions of Go's [strconv]. *)

(** The value of a decimal digit. *)
Definition digit_of (a : ascii) : option Z :=
  let n := Z.of_nat (nat_of_ascii a) in
  if (48 <=? n) && (n <=? 57) then Some (n - 48) else None.

(** A run of decimal digits, most significant first. *)
Fixpoint parse_digits (s : string) (acc : Z) : option Z :=
  match s with
  | EmptyString => Some acc
  | String a s' =>
      match digit_of a with
      | Some d => parse_digits s' (10 * acc + d)
      | None => None
      end
  end.

(** At least one digit is needed. *)
Definition parse_unsigned (s : string) : option Z :=
  match s with
  | EmptyString => None
  | _ => parse_digits s 0
  end.

(** [strconv.ParseInt(s, 10, bits)]: the value and the error.  A syntax
    error gives 0, a range error the nearest bound. *)
Definition strconv_ParseInt (s : string) (bits : Z) : Z * option NumError :=
  let '(neg, body) :=
    match s with
    | String "+" s' => (false, s')
    | String "-" s' => (true, s')
    | _ => (false, s)
    end in
  match parse_unsigned body with
  | None => (0, Some ErrSyntax)
  | Some n =>
      let cutoff := 2 ^ (bits - 1) in
      if neg then
        if n <=? cutoff then (- n, None) else (- cutoff, Some ErrRange)
      else
        if n <? cutoff then (n, None) else (cutoff - 1, Some ErrRange)
  end.

(** [strconv.ParseBool(s)] *)
Definition strconv_ParseBool (s : string) : bool * option NumError :=
  if existsb (String.eqb s) ["1"; "t"; "T"; "TRUE"; "true"; "True"] then (true, None)
  else if existsb (String.eqb s) ["0"; "f"; "F"; "FALSE"; "false"; "False"] then (false, None)
  else (false, Some ErrSyntax).

(** The conversion of a literal to a field kind: the value and the error.
    [int] fields are parsed at [bits] bits. *)
Definition convert (k : kind) (bits : Z) (s : string) : value * option NumError :=
  match k with
  | KString => (VString s, None)
  | KInt => let '(n, e) := strconv_ParseInt s bits in (VInt n, e)
  | KBool => let '(b, e) := strconv_ParseBool s in (VBool b, e)
  end.

(** Modelled from the spec: the External File Loader (package godotenv,
    imported), one entry of the file: [KEY=VALUE] is injected into the
    process environment; a variable that is already set keeps its value. *)
Definition inject (e : gmap string string) (kv : string * string) : gmap string string :=
  match e !! kv.1 with
  | Some _ => e
  | None => <[kv.1 := kv.2]> e
  end.

(** Modelled from the spec: the External File Loader (package godotenv,
    imported), [godotenv.Load()].  It reads [.env] from the working
    directory and injects its entries in order.  A missing or unreadable
    file is an error (the test "missing env file" expects one that mentions
    [.env]). *)
Definition ref_godotenv_Load (f : envFile) (e : gmap string string)
  : error + gmap string string :=
  match f with
  | Absent => inl (FileLoadError "open .env: no such file or directory")
  | Unreadable msg => inl (FileLoadError msg)
  | Present entries => inr (fold_left inject entries e)
  end.

(** Modelled from the spec: the Variable Decoder (package env, imported),
    one field.  The field is looked up under the prefix followed by its
    [env] tag; a value that is set and not empty is converted to the
    field's kind ([int] at 32 bits) and stored; a failed conversion leaves
    the field and is reported with the field's name and the literal. *)
Definition decode_field (pre : string) (e : gmap string string) (f : Field)
  : Field * option ParseError :=
  match e !! (pre ++ envTag (decl f)) with
  | None => (f, None)
  | Some EmptyString => (f, None)
  | Some s =>
      match convert (Kind (decl f)) 32 s with
      | (v, None) => (set_val f v, None)
      | (_, Some cause) =>
          (f, Some {| pe_field := Name (decl f); pe_kind := Kind (decl f);
                      pe_literal := s; pe_cause := cause |})
      end
  end.

(** Modelled from the spec: the Variable Decoder (package env, imported),
    [env.ParseWithOptions].  Anything but a pointer to a struct is refused
    with the shape error.  All fields are visited, and the failures are
    returned together in one error. *)
Definition ref_ParseWithOptions (d : Dest) (pre : string) (e : gmap string string)
  : Dest * option error :=
  match d with
  | PtrStruct tname fs =>
      let rs := map (decode_field pre e) fs in
      (PtrStruct tname (map fst rs),
       match omap snd rs with
       | [] => None
       | errs => Some (DecodeError errs)
       end)
  | _ => (d, Some ShapeError)
  end.

(** Modelled from the spec: the Default Injector (package go-defaults,
    imported), one field.  A field that holds its kind's zero value and
    declares a default takes the default literal, converted to the field's
    kind; the conversion's error is dropped, as the injector has no error
    result. *)
Definition fill_field (f : Field) : Field :=
  if is_zero (val f) then
    match defaultTag (decl f) with
    | Some lit => set_val f (convert (Kind (decl f)) 64 lit).1
    | None => f
    end
  else f.

(** Modelled from the spec: the Default Injector (package go-defaults,
    imported), [defaults.SetDefaults]: every field of the struct is
    filled. *)
Definition ref_SetDefaults (d : Dest) : Dest :=
  match d with
  | PtrStruct tname fs => PtrStruct tname (map fill_field fs)
  | _ => d
  end.

(** Modelled from the spec: the Validator (package validator, imported),
    the constraint [required]: it is violated by a field that holds its
    kind's zero value. *)
Definition violates (f : Field) : bool := required (decl f) && is_zero (val f).

(** Modelled from the spec: the Validator (package validator, imported),
    [validate.Struct]: the error lists every violating field, in the
    order of the struct. *)
Definition ref_validator_Struct (d : Dest) : option error :=
  match d with
  | StructVal tname fs | PtrStruct tname fs =>
      match List.filter violates fs with
      | [] => None
      | bad => Some (ValidationError tname (map (fun f => Name (decl f)) bad))
      end
  | _ => Some InvalidValidationError
  end.

Definition reference : Collaborators := {|
  godotenv_Load := ref_godotenv_Load;
  env_ParseWithOptions := ref_ParseWithOptions;
  defaults_SetDefaults := ref_SetDefaults;
  validator_Struct := ref_validator_Struct
|}.

(** ** The configuration struct of the tests (part_000, lines 11-16) *)

Definition HostDecl : FieldDecl :=
  {| Name := "Host"; Kind := KString; envTag := "HOST"; defaultTag := None; required := true |}.
Definition PortDecl : FieldDecl :=
  {| Name := "Port"; Kind := KInt; envTag := "PORT"; defaultTag := Some "8080"; required := false |}.
Definition DebugDecl : FieldDecl :=
  {| Name := "Debug"; Kind := KBool; envTag := "DEBUG"; defaultTag := Some "false"; required := false |}.
Definition OptionalDecl : FieldDecl :=
  {| Name := "Optional"; Kind := KString; envTag := "OPTIONAL"; defaultTag := None; required := false |}.

Definition zero_field (fd : FieldDecl) : Field := {| decl := fd; val := zero (Kind fd) |}.

(** [&TestConfig{}] *)
Definition TestConfig : Dest :=
  PtrStruct "TestConfig" (map zero_field [HostDecl; PortDecl; DebugDecl; OptionalDecl]).

Definition proc0 (e : list (string * string)) (f : envFile) : Proc :=
  {| environ := list_to_map e; dotenv := f; debugLog := []; calls := [] |}.

(** The struct of the scenario with a required [Host] and a [Port] that
    defaults to 8080. *)
Definition HostPort : Dest :=
  PtrStruct "Config" (map zero_field [HostDecl; PortDecl]).

(** A struct whose default literal does not convert to the field's kind:
    [Port int `env:"PORT" default:"abc"`]. *)
Definition BadDefault : Dest :=
  PtrStruct "BadDefault"
    [zero_field {| Name := "Port"; Kind := KInt; envTag := "PORT";
                   defaultTag := Some "abc"; required := false |}].

(** ** The pretty log handler (src/logging/logger.go) *)

Module Logging.

(** What [a.Value.Any()] can give: [nil], a value that implements [error]
    (with the text of its [Error()]), a string, other scalars, and values
    such as funcs and channels. *)
Inductive any :=
| AnyNil
| AnyError (msg : string)
| AnyString (s : string)
| AnyInt (n : Z)
| AnyBool (b : bool)
| AnyOpaque (id : nat).

Record Attr := { Key : string; Value : any }.

Record slog_Record := {
  Time : Z;
  Message : string;
  Level : Z;
  PC : Z;
  attrs : list Attr
}.

Definition LevelDebug : Z := -4.
Definition LevelInfo : Z := 0.
Definition LevelWarn : Z := 4.
Definition LevelError : Z := 8.

Inductive Color := Magenta | Blue | Yellow | Red | Cyan | Green | White.

(** [r.Attrs(f)]: calls [f] on each attribute in order, until [f] returns
    false. *)
Fixpoint Record_Attrs {S : Type} (f : Attr -> S -> S * bool) (l : list Attr) (s : S) : S :=
  match l with
  | [] => s
  | a :: l' =>
      let '(s', continue) := f a s in
      if continue then Record_Attrs f l' s' else s'
  end.

(** [log.Logger.Println]: the operands separated by spaces, and a newline. *)
Definition Println (operands : list string) : string := join " " operands ++ nl.

Section Handler.
(** The runtime the handler calls into: [color.*String], [Level.String],
    [Time.Format], [runtime.CallersFrames], [fmt.Sprint] and
    [json.MarshalIndent] (whose errors have type [E]). *)
Context {E : Type}.
Context (colorize : Color -> string -> string).
Context (Level_String : Z -> string).
Context (Time_Format : Z -> string).
Context (frame_of : Z -> string * Z).
Context (fmt_Sprint : any -> string).
Context (json_MarshalIndent : gmap string any -> E + string).

(** The callback of lines 40-56. *)
Definition on_attr (a : Attr) (fields : gmap string any) : gmap string any * bool :=
  if String.eqb (Key a) "error" then
    match Value a with
    | AnyError msg => (<[Key a := AnyString msg]> fields, true)
    | AnyString v => (<[Key a := AnyString v]> fields, true)
    | v => (<[Key a := AnyString (fmt_Sprint v)]> fields, true)
    end
  else (<[Key a := Value a]> fields, true).

(** The value the callback stores under an attribute's key. *)
Definition stored (a : Attr) : any :=
  match (on_attr a ∅).1 !! Key a with
  | Some v => v
  | None => AnyNil
  end.

(** Lines 39-56: the fields map the record is rendered from. *)
Definition fields_of_record (r : slog_Record) : gmap string any :=
  Record_Attrs on_attr (attrs r) ∅.

(** [Handle], with the lines printed so far as the state of the logger. *)
Definition Handle (r : slog_Record) (out : list string) : option E * list string :=
  let level := Level_String (Level r) ++ ":" in
  let level :=
    if Level r =? LevelDebug then colorize Magenta level
    else if Level r =? LevelInfo then colorize Blue level
    else if Level r =? LevelWarn then colorize Yellow level
    else if Level r =? LevelError then colorize Red level
    else level in
  let fields := fields_of_record r in
  match json_MarshalIndent fields with
  | inl err => (Some err, out)
  | inr b =>
      let timeStr := Time_Format (Time r) in
      let msg := colorize Cyan (Message r) in
      let fileStr :=
        if PC r =? 0 then EmptyString
        else
          let '(file, line) := frame_of (PC r) in
          colorize Green file ++ ":" ++ colorize Green (fmt_Sprint (AnyInt line)) in
      (None, (out ++ [Println [timeStr; level; msg; fileStr; colorize White b]])%list)
  end.

End Handler.

(** A runtime to evaluate the handler with: no colours, a fixed clock and
    frame, and a marshaller that rejects funcs and channels and writes the
    entries in the map's own order. *)
Definition plain_Sprint (v : any) : string :=
  match v with
  | AnyNil => "<nil>"
  | AnyError msg => msg
  | AnyString s => s
  | AnyInt n => NilZero.string_of_int (Z.to_int n)
  | AnyBool b => if b then "true" else "false"
  | AnyOpaque _ => "0x0"
  end.

Definition marshalable (v : any) : bool :=
  match v with AnyOpaque _ => false | _ => true end.

Definition plain_entry (kv : string * any) : string :=
  dq ++ kv.1 ++ dq ++ ": "
  ++ match kv.2 with
     | AnyNil => "null"
     | AnyError _ => "{}"
     | AnyString s => dq ++ s ++ dq
     | v => plain_Sprint v
     end.

Definition plain_Marshal (fields : gmap string any) : string + string :=
  if forallb (fun kv => marshalable kv.2) (map_to_list fields)
  then inr ("{" ++ join ", " (map plain_entry (map_to_list fields)) ++ "}")
  else inl "json: unsupported type".

Definition plain_Handle : slog_Record -> list string -> option string * list string :=
  Handle (fun _ s => s) (fun _ => "LEVEL") (fun _ => "[00:00:00.000]")
         (fun _ => ("logger.go", 0)) plain_Sprint plain_Marshal.

(** [slog.Error("failed", "error", err, "attempt", 0)] with
    [err = errors.New("boom")]. *)
Definition failed_record : slog_Record :=
  {| Time := 0; Message := "failed"; Level := LevelError; PC := 0;
     attrs := [ {| Key := "error"; Value := AnyError "boom" |};
                {| Key := "attempt"; Value := AnyInt 0 |} ] |}.

End Logging.

(** ** More of the loader's surroundings *)

(** The same collaborators with another file loader. *)
Definition with_file_loader (c : Collaborators)
  (g : envFile -> gmap string string -> error + gmap string string) : Collaborators :=
  {| godotenv_Load := g;
     env_ParseWithOptions := env_ParseWithOptions c;
     defaults_SetDefaults := defaults_SetDefaults c;
     validator_Struct := validator_Struct c |}.

(** The same process with another [.env] file. *)
Definition with_dotenv (f : envFile) (p : Proc) : Proc :=
  {| environ := environ p; dotenv := f; debugLog := debugLog p; calls := calls p |}.

(** The step that stands before the decoder in the version of [Load] that
    stats the file: skipped, or nothing but a log entry for an absent file,
    or the file loader. *)
Definition stat_env_for_decode (c : Collaborators) (o : configOptions) (p : Proc)
  : error + gmap string string :=
  if skipEnv o || StatFirst.stat_IsNotExist p then inr (environ p)
  else godotenv_Load c (dotenv p) (environ p).

(** [logging.Config] (the logger file appended to src/config/README.md,
    lines 95-98): [Level string `env:"LEVEL" default:"info"`] and
    [JSON bool `env:"JSON" default:"true"`]. *)
Definition LevelDecl : FieldDecl :=
  {| Name := "Level"; Kind := KString; envTag := "LEVEL"; defaultTag := Some "info";
     required := false |}.
Definition JSONDecl : FieldDecl :=
  {| Name := "JSON"; Kind := KBool; envTag := "JSON"; defaultTag := Some "true";
     required := false |}.

(** [&logging.Config{}] *)
Definition LoggingConfig : Dest :=
  PtrStruct "Config" (map zero_field [LevelDecl; JSONDecl]).

(** ** The other version of the logger (appended to src/config/README.md) *)

Module LoggingKinds.
Import Logging.

(** [slog.Kind], for the values of [any]: strings, integers and booleans
    have their own kind, everything else ([nil], errors, funcs) is
    [KindAny]. *)
Inductive slog_Kind := KindAny | KindBool | KindInt64 | KindString.

(** [a.Value.Kind()] *)
Definition Value_Kind (v : any) : slog_Kind :=
  match v with
  | AnyString _ => KindString
  | AnyInt _ => KindInt64
  | AnyBool _ => KindBool
  | AnyNil | AnyError _ | AnyOpaque _ => KindAny
  end.

(** [replaceAttr] (lines 164-174): an error value is replaced by
    [slog.StringValue(v.Error())]. *)
Definition replaceAttr (groups : list string) (a : Attr) : Attr :=
  match Value_Kind (Value a) with
  | KindAny =>
      match Value a with
      | AnyError msg => {| Key := Key a; Value := AnyString msg |}
      | _ => a
      end
  | _ => a
  end.

(** The callback of [Handle] (lines 130-142): the same switch, written
    out again in the handler, then the assignment to the map. *)
Definition on_attr (a : Attr) (fields : gmap string any) : gmap string any * bool :=
  let a :=
    match Value_Kind (Value a) with
    | KindAny =>
        match Value a with
        | AnyError msg => {| Key := Key a; Value := AnyString msg |}
        | _ => a
        end
    | _ => a
    end in
  (<[Key a := Value a]> fields, true).

Definition fields_of_record (r : slog_Record) : gmap string any :=
  Record_Attrs on_attr (attrs r) ∅.

Section Handler.
Context {E : Type}.
Context (colorize : Color -> string -> string).
Context (Level_String : Z -> string).
Context (Time_Format : Z -> string).
Context (frame_of : Z -> string * Z).
Context (fmt_Sprint : any -> string).
Context (json_MarshalIndent : gmap string any -> E + string).

(** [Handle] (lines 115-162). *)
Definition Handle (r : slog_Record) (out : list string) : option E * list string :=
  let level := Level_String (Level r) ++ ":" in
  let level :=
    if Level r =? LevelDebug then colorize Magenta level
    else if Level r =? LevelInfo then colorize Blue level
    else if Level r =? LevelWarn then colorize Yellow level
    else if Level r =? LevelError then colorize Red level
    else level in
  let fields := fields_of_record r in
  match json_MarshalIndent fields with
  | inl err => (Some err, out)
  | inr b =>
      let timeStr := Time_Format (Time r) in
      let msg := colorize Cyan (Message r) in
      let fileStr :=
        if PC r =? 0 then EmptyString
        else
          let '(file, line) := frame_of (PC r) in
          colorize Green file ++ ":" ++ colorize Green (fmt_Sprint (AnyInt line)) in
      (None, (out ++ [Println [timeStr; level; msg; fileStr; colorize White b]])%list)
  end.

End Handler.

(** An error with the program counters [xerrors.StackTrace] finds in it. *)
Record xerror := { err_Error : string; err_StackTrace : list Z }.

(** [xerrors.Frame] *)
Record Frame := { File : string; Line : Z; Function : string }.

(** [stackFrame] (lines 109-113) *)
Record stackFrame := { Func : string; Source : string; sf_Line : Z }.

(** The attributes [fmtErr] puts into its group. *)
Inductive groupAttr :=
| slog_String (key : string) (v : string)
| slog_Any (key : string) (frames : list stackFrame).

Section Stack.
(** [Callers.Frames] of xerrors and the functions of [path/filepath]. *)
Context (Frames : list Z -> list Frame).
Context (filepath_Base filepath_Dir : string -> string).
Context (filepath_Join : string -> string -> string).

(** [marshalStack] (lines 177-201); [None] is the nil slice. *)
Definition marshalStack (err : xerror) : option (list stackFrame) :=
  let trace := err_StackTrace err in
  if Nat.eqb (length trace) 0 then None
  else
    let frames := Frames trace in
    Some (map (fun v =>
                 {| Source := filepath_Join (filepath_Base (filepath_Dir (File v)))
                                            (filepath_Base (File v));
                    Func := filepath_Base (Function v);
                    sf_Line := Line v |})
              frames).

(** [fmtErr] (lines 206-220): the attributes of the group it returns. *)
Definition fmtErr (err : xerror) : list groupAttr :=
  let groupValues := [slog_String "msg" (err_Error err)] in
  match marshalStack err with
  | Some frames => (groupValues ++ [slog_Any "trace" frames])%list
  | None => groupValues
  end.

End Stack.

(** The attributes on which the callbacks of the two versions of [Handle]
    store the same value: under the key "error" an error or a string,
    under another key anything but an error. *)
Definition same_in_both (a : Attr) : bool :=
  if String.eqb (Key a) "error" then
    match Value a with AnyError _ | AnyString _ => true | _ => false end
  else
    match Value a with AnyError _ => false | _ => true end.

End LoggingKinds.

(** * Properties *)

(** ** Options *)

Lemma applyOptions_snoc (opts : list Option) (opt : Option) :
  applyOptions (opts ++ [opt]) = opt (applyOptions opts).
Proof. unfold applyOptions. now rewrite fold_left_app. Qed.

Lemma prefix_kept (ks : list OptionKind) (o : configOptions) :
  forallb (fun k => negb (is_WithPrefix k)) ks = true ->
  prefix (fold_left (fun o opt => opt o) (map option_of ks) o) = prefix o.
Proof.
  revert o. induction ks as [|k ks IH]; intros o H; simpl in *; [reflexivity|].
  apply andb_prop in H as [Hk Hks]. rewrite IH by assumption.
  destruct k; simpl in *; [discriminate|reflexivity|reflexivity].
Qed.

Lemma skipValid_mono (ks : list OptionKind) (o : configOptions) :
  skipValid o = true ->
  skipValid (fold_left (fun o opt => opt o) (map option_of ks) o) = true.
Proof.
  revert o. induction ks as [|k ks IH]; intros o H; simpl; [assumption|].
  apply IH. destruct k; simpl; auto.
Qed.

Lemma skipEnv_mono (ks : list OptionKind) (o : configOptions) :
  skipEnv o = true ->
  skipEnv (fold_left (fun o opt => opt o) (map option_of ks) o) = true.
Proof.
  revert o. induction ks as [|k ks IH]; intros o H; simpl; [assumption|].
  apply IH. destruct k; simpl; auto.
Qed.

Lemma skipValid_applied (ks : list OptionKind) :
  In OSkipValidation ks -> skipValid (applyOptions (map option_of ks)) = true.
Proof.
  unfold applyOptions. generalize zeroOptions.
  induction ks as [|k ks IH]; intros o H; simpl in *; [contradiction|].
  destruct H as [->|H]; [apply skipValid_mono; reflexivity | now apply IH].
Qed.

Lemma skipEnv_applied (ks : list OptionKind) :
  In OSkipEnvFile ks -> skipEnv (applyOptions (map option_of ks)) = true.
Proof.
  unfold applyOptions. generalize zeroOptions.
  induction ks as [|k ks IH]; intros o H; simpl in *; [contradiction|].
  destruct H as [->|H]; [apply skipEnv_mono; reflexivity | now apply IH].
Qed.

Lemma skipValid_not_applied (ks : list OptionKind) (o : configOptions) :
  ~ In OSkipValidation ks ->
  skipValid (fold_left (fun o opt => opt o) (map option_of ks) o) = skipValid o.
Proof.
  revert o. induction ks as [|k ks IH]; intros o H; simpl in *; [reflexivity|].
  rewrite IH by tauto. destruct k; simpl; try reflexivity. tauto.
Qed.

Lemma skipEnv_not_applied (ks : list OptionKind) (o : configOptions) :
  ~ In OSkipEnvFile ks ->
  skipEnv (fold_left (fun o opt => opt o) (map option_of ks) o) = skipEnv o.
Proof.
  revert o. induction ks as [|k ks IH]; intros o H; simpl in *; [reflexivity|].
  rewrite IH by tauto. destruct k; simpl; try reflexivity. tauto.
Qed.

(** ** [Load], step by step *)

(** [Load] of config.go with its early returns written out. *)
Lemma Load_steps (c : Collaborators) (d : Dest) (opts : list Option) (p : Proc) :
  Load c d opts p =
  let o := applyOptions opts in
  let p0 := if skipEnv o then p else called StepFile p in
  match env_for_decode c o p with
  | inl e => (Some e, (p0, d))
  | inr e1 =>
      let p1 := called StepDecode (with_environ e1 p0) in
      match env_ParseWithOptions c d (prefix o) e1 with
      | (d1, Some e) => (Some e, (p1, d1))
      | (d1, None) =>
          let d2 := defaults_SetDefaults c d1 in
          let p2 := called StepDefaults p1 in
          if skipValid o then (None, (p2, d2))
          else (validator_Struct c d2, (called StepValidate p2, d2))
      end
  end.
Proof.
  unfold Load, env_for_decode, decode_onward, bind, call_godotenv,
    call_ParseWithOptions, call_SetDefaults, call_validate, ret, as_error.
  cbv zeta. destruct (skipEnv (applyOptions opts)); simpl.
  - destruct p as [en f lg cs]; simpl.
    destruct (env_ParseWithOptions c d (prefix (applyOptions opts)) en) as [d1 [e|]];
      simpl; [reflexivity|].
    destruct (skipValid (applyOptions opts)); simpl; [reflexivity|].
    destruct (validator_Struct c (defaults_SetDefaults c d1)); reflexivity.
  - destruct (godotenv_Load c (dotenv p) (environ p)) as [e|e1]; simpl; [reflexivity|].
    destruct (env_ParseWithOptions c d (prefix (applyOptions opts)) e1) as [d1 [e|]];
      simpl; [reflexivity|].
    destruct (skipValid (applyOptions opts)); simpl; [reflexivity|].
    destruct (validator_Struct c (defaults_SetDefaults c d1)); reflexivity.
Qed.

Lemma Load_frame (c : Collaborators) (d : Dest) (opts : list Option) (p : Proc) :
  dotenv (Load c d opts p).2.1 = dotenv p
  /\ debugLog (Load c d opts p).2.1 = debugLog p
  /\ environ (Load c d opts p).2.1
     = match env_for_decode c (applyOptions opts) p with
       | inl _ => environ p
       | inr e1 => e1
       end
  /\ (Load c d opts p).2.2
     = match env_for_decode c (applyOptions opts) p with
       | inl _ => d
       | inr e1 =>
           match env_ParseWithOptions c d (prefix (applyOptions opts)) e1 with
           | (d1, Some _) => d1
           | (d1, None) => defaults_SetDefaults c d1
           end
       end.
Proof.
  rewrite Load_steps. cbv zeta. unfold env_for_decode.
  destruct (skipEnv (applyOptions opts)); cbv iota beta.
  - destruct (env_ParseWithOptions c d (prefix (applyOptions opts)) (environ p))
      as [d1 [e|]]; [simpl; auto|].
    destruct (skipValid (applyOptions opts)); simpl; auto.
  - destruct (godotenv_Load c (dotenv p) (environ p)) as [e|e1]; [simpl; auto|].
    cbv iota beta. destruct (env_ParseWithOptions c d (prefix (applyOptions opts)) e1)
      as [d1 [e|]]; [simpl; auto|].
    destruct (skipValid (applyOptions opts)); simpl; auto.
Qed.

Lemma Load_nil_steps (c : Collaborators) (d : Dest) (opts : list Option) (p : Proc) :
  (Load c d opts p).1 = None ->
  exists e1 d1,
    env_for_decode c (applyOptions opts) p = inr e1
    /\ env_ParseWithOptions c d (prefix (applyOptions opts)) e1 = (d1, None).
Proof.
  rewrite Load_steps. cbv zeta.
  destruct (env_for_decode c (applyOptions opts) p) as [e|e1] eqn:He; [discriminate|].
  destruct (env_ParseWithOptions c d (prefix (applyOptions opts)) e1)
    as [d1 [e|]] eqn:Hd; [discriminate|].
  intros _. exists e1, d1. split; [reflexivity | exact Hd].
Qed.

(** The other version of [Load] with its early returns written out. *)
Lemma StatFirst_Load_steps (c : Collaborators) (d : Dest) (opts : list Option) (p : Proc) :
  StatFirst.Load c d opts p =
  let o := applyOptions opts in
  if skipEnv o then as_error (decode_onward c o (p, d))
  else if StatFirst.stat_IsNotExist p
       then as_error (decode_onward c o (slog_Debug "env file does not exists" p, d))
       else Load c d opts p.
Proof.
  unfold StatFirst.Load, Load, StatFirst.stat_then_godotenv, bind, ret. cbv zeta.
  destruct (skipEnv (applyOptions opts)); simpl; [reflexivity|].
  destruct (StatFirst.stat_IsNotExist p); reflexivity.
Qed.

(** ** The tests of the repository (src/unnamed/part_000, lines 18-190) *)

Example test_basic_configuration_with_defaults :
  let r := Load reference TestConfig [SkipEnvFile] (proc0 [] Absent) in
  r.1 <> None
  /\ field_value "Port" r.2.2 = Some (VInt 8080)
  /\ field_value "Debug" r.2.2 = Some (VBool false)
  /\ field_value "Optional" r.2.2 = Some (VString EmptyString).
Proof. vm_compute. repeat split; congruence. Qed.

Example test_with_environment_variables :
  let r := Load reference TestConfig [SkipEnvFile]
             (proc0 [("HOST", "localhost"); ("PORT", "9090"); ("DEBUG", "true")] Absent) in
  r.1 = None
  /\ field_value "Host" r.2.2 = Some (VString "localhost")
  /\ field_value "Port" r.2.2 = Some (VInt 9090)
  /\ field_value "Debug" r.2.2 = Some (VBool true).
Proof. vm_compute. repeat split. Qed.

Example test_with_prefix :
  let r := Load reference TestConfig [SkipEnvFile; WithPrefix "APP_"]
             (proc0 [("APP_HOST", "localhost"); ("APP_PORT", "9090")] Absent) in
  r.1 = None
  /\ field_value "Host" r.2.2 = Some (VString "localhost")
  /\ field_value "Port" r.2.2 = Some (VInt 9090).
Proof. vm_compute. repeat split. Qed.

Example test_with_env_file :
  let r := Load reference TestConfig []
             (proc0 [] (Present [("HOST", "testhost"); ("PORT", "5000")])) in
  r.1 = None
  /\ field_value "Host" r.2.2 = Some (VString "testhost")
  /\ field_value "Port" r.2.2 = Some (VInt 5000).
Proof. vm_compute. repeat split. Qed.

Example test_missing_env_file :
  match (Load reference TestConfig [] (proc0 [] Absent)).1 with
  | Some err => contains (Error err) ".env" = true
  | None => False
  end.
Proof. vm_compute. reflexivity. Qed.

Example test_duplicate_options :
  prefix (applyOptions [WithPrefix "APP_"; WithPrefix "TEST_"; SkipEnvFile]) = "TEST_"
  /\ (Load reference TestConfig [WithPrefix "APP_"; WithPrefix "TEST_"; SkipEnvFile]
           (proc0 [] Absent)).1 <> None.
Proof. vm_compute. split; congruence. Qed.

Lemma decode_onward_calls (c : Collaborators) (o : configOptions) (p : Proc) (d : Dest) :
  exists l, calls (as_error (decode_onward c o (p, d))).2.1 = (calls p ++ StepDecode :: l)%list
            /\ ~ In StepFile l.
Proof.
  unfold decode_onward, bind, call_ParseWithOptions, call_SetDefaults, call_validate, ret.
  destruct (env_ParseWithOptions c d (prefix o) (environ (called StepDecode p)))
    as [d1 [e|]] eqn:E; simpl.
  - exists []. split; [reflexivity | simpl; tauto].
  - destruct (skipValid o); simpl.
    + exists [StepDefaults]. rewrite <- app_assoc. split; [reflexivity|].
      simpl; intuition discriminate.
    + exists [StepDefaults; StepValidate].
      destruct (validator_Struct c (defaults_SetDefaults c d1)); simpl;
        rewrite <- !app_assoc; (split; [reflexivity | simpl; intuition discriminate]).
Qed.

(** C7: the options are applied in call order to the zeroed record
    [&configOptions{}]; of two writes to the same field only the last one
    counts, so a call with two [WithPrefix] options decodes exactly as the
    call with the second alone; [SkipEnvFile] and [SkipValidation] are
    idempotent. *)
Theorem options_in_order_last_write_wins :
  applyOptions [] = zeroOptions
  /\ (forall opts opt, applyOptions (opts ++ [opt]) = opt (applyOptions opts))
  /\ (forall a b o, WithPrefix b (WithPrefix a o) = WithPrefix b o)
  /\ (forall ks1 a ks2,
        prefix (applyOptions (map option_of
          (ks1 ++ OWithPrefix a :: List.filter (fun k => negb (is_WithPrefix k)) ks2))) = a)
  /\ (forall c d ks1 a b ks2 p,
        Load c d (map option_of (ks1 ++ OWithPrefix a :: OWithPrefix b :: ks2)) p
        = Load c d (map option_of (ks1 ++ OWithPrefix b :: ks2)) p)
  /\ (forall o, SkipEnvFile (SkipEnvFile o) = SkipEnvFile o)
  /\ (forall o, SkipValidation (SkipValidation o) = SkipValidation o).
Proof.
  repeat split; try reflexivity.
  - apply applyOptions_snoc.
  - intros ks1 a ks2. unfold applyOptions.
    rewrite map_app, fold_left_app. simpl. rewrite prefix_kept; [reflexivity|].
    induction ks2 as [|k ks2 IH]; simpl; [reflexivity|].
    destruct (negb (is_WithPrefix k)) eqn:E; simpl; [now rewrite E|exact IH].
  - intros c d ks1 a b ks2 p.
    assert (H : applyOptions (map option_of (ks1 ++ OWithPrefix a :: OWithPrefix b :: ks2))
                = applyOptions (map option_of (ks1 ++ OWithPrefix b :: ks2))).
    { unfold applyOptions. now rewrite !map_app, !fold_left_app. }
    unfold Load. now rewrite H.
Qed.

(** C6: when [SkipValidation] was applied, the validator is not called:
    no call of it is recorded and the outcome is the same whatever the
    validator is; and once the file step (if it runs) and the decoder
    succeed, [Load] returns nil with the destination as the injector left
    it, whatever the validator would say about it. *)
Theorem skip_validation_returns_nil
  (c : Collaborators) (d : Dest) (ks : list OptionKind) (p : Proc) :
  In OSkipValidation ks ->
  (exists l,
      calls (Load c d (map option_of ks) p).2.1 = (calls p ++ l)%list
      /\ ~ In StepValidate l)
  /\ (forall v, Load (with_validator c v) d (map option_of ks) p
                = Load c d (map option_of ks) p)
  /\ (forall e1 d1,
        env_for_decode c (applyOptions (map option_of ks)) p = inr e1 ->
        env_ParseWithOptions c d (prefix (applyOptions (map option_of ks))) e1
        = (d1, None) ->
        (Load c d (map option_of ks) p).1 = None
        /\ (Load c d (map option_of ks) p).2.2 = defaults_SetDefaults c d1).
Proof.
  intros Hs. pose proof (skipValid_applied ks Hs) as Hv.
  split; [|split].
  - rewrite Load_steps. cbv zeta. rewrite Hv. unfold env_for_decode.
    destruct (skipEnv (applyOptions (map option_of ks))).
    + destruct (env_ParseWithOptions c d _ (environ p)) as [d1 [e|]]; cbn.
      * exists [StepDecode]. split; [reflexivity | simpl; intuition discriminate].
      * exists [StepDecode; StepDefaults]. rewrite <- app_assoc.
        split; [reflexivity | simpl; intuition discriminate].
    + destruct (godotenv_Load c (dotenv p) (environ p)) as [e|e1]; cbn.
      * exists [StepFile]. split; [reflexivity | simpl; intuition discriminate].
      * destruct (env_ParseWithOptions c d _ e1) as [d1 [e|]]; cbn.
        -- exists [StepFile; StepDecode]. rewrite <- !app_assoc.
           split; [reflexivity | simpl; intuition discriminate].
        -- exists [StepFile; StepDecode; StepDefaults]. rewrite <- !app_assoc.
           split; [reflexivity | simpl; intuition discriminate].
  - intros v. rewrite !Load_steps. cbv zeta. rewrite Hv. reflexivity.
  - intros e1 d1 He Hd. rewrite Load_steps. cbv zeta. rewrite He, Hd, Hv.
    split; reflexivity.
Qed.

(** The test "skip validation": the required [Host] has no value. *)
Lemma skip_validation_returns_nil_witness :
  (Load reference TestConfig (map option_of [OSkipEnvFile; OSkipValidation])
        (proc0 [] Absent)).1 = None
  /\ validator_Struct reference
       (Load reference TestConfig (map option_of [OSkipEnvFile; OSkipValidation])
             (proc0 [] Absent)).2.2
     = Some (ValidationError "TestConfig" ["Host"]).
Proof.
  split; [|vm_compute; reflexivity].
  destruct (skip_validation_returns_nil reference TestConfig
              [OSkipEnvFile; OSkipValidation] (proc0 [] Absent))
    as (_ & _ & H); [simpl; tauto|].
  apply (H ∅ (ref_ParseWithOptions TestConfig EmptyString ∅).1).
  - reflexivity.
  - vm_compute; reflexivity.
Defined.

(** ** The [.env] file *)

Lemma decode_onward_frame (c : Collaborators) (o : configOptions) (p : Proc) (d : Dest) :
  let p' := (as_error (decode_onward c o (p, d))).2.1 in
  environ p' = environ p /\ dotenv p' = dotenv p /\ debugLog p' = debugLog p.
Proof.
  unfold decode_onward, bind, call_ParseWithOptions, call_SetDefaults, call_validate, ret.
  destruct (env_ParseWithOptions c d (prefix o) (environ (called StepDecode p)))
    as [d1 [e|]]; simpl; [tauto|].
  destruct (skipValid o); simpl; [tauto|].
  destruct (validator_Struct c (defaults_SetDefaults c d1)); simpl; tauto.
Qed.

(** C2, refuted for [Load] of config.go: [SkipEnvFile] is not applied, the
    file is absent, and the call returns the file loader's error; only the
    file loader was called and nothing was logged. *)
Lemma absent_env_file_fails_config_go :
  Load reference TestConfig (map option_of [OWithPrefix EmptyString])
       (proc0 [("HOST", "localhost")] Absent)
  = (Some (FileLoadError "open .env: no such file or directory"),
     (called StepFile (proc0 [("HOST", "localhost")] Absent), TestConfig)).
Proof. vm_compute. reflexivity. Qed.

(** C2, amended: when [SkipEnvFile] is not applied, the version of [Load]
    that stats [./.env] first logs the absence of the file at debug level
    and goes on with the decoder, without calling the file loader, so that
    mere absence is no error; with the file present it behaves as [Load] of
    config.go.  [Load] of config.go calls the file loader in every case and
    returns its error verbatim, for an absent file as for an unreadable
    one, before anything is decoded. *)
Theorem env_file_absence_policy
  (c : Collaborators) (d : Dest) (ks : list OptionKind) (p : Proc) :
  ~ In OSkipEnvFile ks ->
  StatFirst.Load c d (map option_of ks) p
  = match dotenv p with
    | Absent =>
        as_error (decode_onward c (applyOptions (map option_of ks))
                    (slog_Debug "env file does not exists" p, d))
    | _ => Load c d (map option_of ks) p
    end
  /\ match dotenv p with
     | Absent =>
         debugLog (StatFirst.Load c d (map option_of ks) p).2.1
         = (debugLog p ++ ["env file does not exists"])%list
         /\ exists l,
              calls (StatFirst.Load c d (map option_of ks) p).2.1
              = (calls p ++ StepDecode :: l)%list
              /\ ~ In StepFile l
     | _ => True
     end
  /\ Load c d (map option_of ks) p
     = match godotenv_Load c (dotenv p) (environ p) with
       | inl e => (Some e, (called StepFile p, d))
       | inr e1 =>
           as_error (decode_onward c (applyOptions (map option_of ks))
                       (with_environ e1 (called StepFile p), d))
       end.
Proof.
  intros Hs.
  assert (Ho : skipEnv (applyOptions (map option_of ks)) = false).
  { unfold applyOptions. now rewrite skipEnv_not_applied. }
  assert (H1 : StatFirst.Load c d (map option_of ks) p
    = match dotenv p with
      | Absent =>
          as_error (decode_onward c (applyOptions (map option_of ks))
                      (slog_Debug "env file does not exists" p, d))
      | _ => Load c d (map option_of ks) p
      end).
  { rewrite StatFirst_Load_steps. cbv zeta. rewrite Ho.
    unfold StatFirst.stat_IsNotExist. destruct (dotenv p); reflexivity. }
  split; [exact H1|]. split.
  - rewrite H1. destruct (dotenv p); [|exact I|exact I]. split.
    + now destruct (decode_onward_frame c (applyOptions (map option_of ks))
                      (slog_Debug "env file does not exists" p) d) as (_ & _ & ->).
    + destruct (decode_onward_calls c (applyOptions (map option_of ks))
                  (slog_Debug "env file does not exists" p) d) as (l & Hl & Hn).
      exists l. split; [exact Hl | exact Hn].
  - unfold Load, bind, call_godotenv. cbv zeta. rewrite Ho. simpl.
    destruct (godotenv_Load c (dotenv p) (environ p)); reflexivity.
Qed.

(** The test "missing env file" under both versions of [Load]. *)
Lemma env_file_absence_policy_witness :
  StatFirst.Load reference TestConfig (map option_of []) (proc0 [] Absent)
  = as_error (decode_onward reference (applyOptions (map option_of []))
                (slog_Debug "env file does not exists" (proc0 [] Absent), TestConfig))
  /\ Load reference TestConfig (map option_of []) (proc0 [] Absent)
     = (Some (FileLoadError "open .env: no such file or directory"),
        (called StepFile (proc0 [] Absent), TestConfig)).
Proof.
  destruct (env_file_absence_policy reference TestConfig [] (proc0 [] Absent))
    as (H1 & _ & H3); [simpl; tauto|].
  split; [exact H1 | exact H3].
Defined.

(** ** Where the errors of [Load] come from *)

(** C8, refuted: the injector cannot convert the default literal [abc] of
    an integer field, and [Load] returns nil after the validator has run. *)
Lemma injector_failure_is_silent :
  (convert KInt 64 "abc").2 = Some ErrSyntax
  /\ Load reference BadDefault (map option_of [OSkipEnvFile]) (proc0 [] Absent)
     = (None,
        ({| environ := ∅; dotenv := Absent; debugLog := [];
            calls := [StepDecode; StepDefaults; StepValidate] |},
         BadDefault)).
Proof. split; vm_compute; reflexivity. Qed.

(** C8, amended: [defaults.SetDefaults] has no error result, and no error
    of [Load] is attributable to it.  An error returned by [Load] is the
    one the file loader returned (nothing else has run), or the one the
    decoder returned (the injector has not run), or the one the validator
    returned for the destination the injector left. *)
Theorem load_errors_are_file_decode_or_validation
  (c : Collaborators) (d : Dest) (opts : list Option) (p : Proc)
  (e : error) (s' : Proc * Dest) :
  Load c d opts p = (Some e, s') ->
  (skipEnv (applyOptions opts) = false
   /\ godotenv_Load c (dotenv p) (environ p) = inl e
   /\ s' = (called StepFile p, d))
  \/ (exists e1 d1,
        env_for_decode c (applyOptions opts) p = inr e1
        /\ env_ParseWithOptions c d (prefix (applyOptions opts)) e1 = (d1, Some e)
        /\ s'.2 = d1
        /\ calls s'.1 = (calls p ++ calls_to_decode (applyOptions opts))%list)
  \/ (exists e1 d1,
        env_for_decode c (applyOptions opts) p = inr e1
        /\ env_ParseWithOptions c d (prefix (applyOptions opts)) e1 = (d1, None)
        /\ skipValid (applyOptions opts) = false
        /\ validator_Struct c (defaults_SetDefaults c d1) = Some e
        /\ s'.2 = defaults_SetDefaults c d1).
Proof.
  rewrite Load_steps. cbv zeta. unfold env_for_decode, calls_to_decode.
  destruct (skipEnv (applyOptions opts)) eqn:Hs.
  - destruct (env_ParseWithOptions c d (prefix (applyOptions opts)) (environ p))
      as [d1 [e'|]] eqn:Hd.
    + intros [= -> <-]. right; left. exists (environ p), d1. simpl. tauto.
    + destruct (skipValid (applyOptions opts)) eqn:Hv; [discriminate|].
      intros [= Hval <-]. right; right. exists (environ p), d1. simpl. tauto.
  - destruct (godotenv_Load c (dotenv p) (environ p)) as [e'|e1] eqn:Hf.
    + intros [= -> <-]. left. tauto.
    + destruct (env_ParseWithOptions c d (prefix (applyOptions opts)) e1)
        as [d1 [e'|]] eqn:Hd.
      * intros [= -> <-]. right; left. exists e1, d1. simpl.
        rewrite <- app_assoc. tauto.
      * destruct (skipValid (applyOptions opts)) eqn:Hv; [discriminate|].
        intros [= Hval <-]. right; right. exists e1, d1. simpl. tauto.
Qed.

(** The test "validation failure": the error is the validator's. *)
Lemma load_errors_are_file_decode_or_validation_witness :
  (skipEnv (applyOptions (map option_of [OSkipEnvFile])) = false
   /\ godotenv_Load reference (dotenv (proc0 [] Absent)) (environ (proc0 [] Absent))
      = inl (ValidationError "TestConfig" ["Host"])
   /\ (Load reference TestConfig (map option_of [OSkipEnvFile]) (proc0 [] Absent)).2
      = (called StepFile (proc0 [] Absent), TestConfig))
  \/ (exists e1 d1,
        env_for_decode reference (applyOptions (map option_of [OSkipEnvFile])) (proc0 [] Absent) = inr e1
        /\ env_ParseWithOptions reference TestConfig
             (prefix (applyOptions (map option_of [OSkipEnvFile]))) e1
           = (d1, Some (ValidationError "TestConfig" ["Host"]))
        /\ (Load reference TestConfig (map option_of [OSkipEnvFile]) (proc0 [] Absent)).2.2 = d1
        /\ calls (Load reference TestConfig (map option_of [OSkipEnvFile]) (proc0 [] Absent)).2.1
           = (calls (proc0 [] Absent)
              ++ calls_to_decode (applyOptions (map option_of [OSkipEnvFile])))%list)
  \/ (exists e1 d1,
        env_for_decode reference (applyOptions (map option_of [OSkipEnvFile])) (proc0 [] Absent) = inr e1
        /\ env_ParseWithOptions reference TestConfig
             (prefix (applyOptions (map option_of [OSkipEnvFile]))) e1
           = (d1, None)
        /\ skipValid (applyOptions (map option_of [OSkipEnvFile])) = false
        /\ validator_Struct reference (defaults_SetDefaults reference d1)
           = Some (ValidationError "TestConfig" ["Host"])
        /\ (Load reference TestConfig (map option_of [OSkipEnvFile]) (proc0 [] Absent)).2.2
           = defaults_SetDefaults reference d1).
Proof.
  apply (load_errors_are_file_decode_or_validation reference TestConfig
           (map option_of [OSkipEnvFile]) (proc0 [] Absent)
           (ValidationError "TestConfig" ["Host"])).
  vm_compute. reflexivity.
Defined.

(** ** Substrings of error messages *)

Lemma append_cons (x : ascii) (a b : string) : String x a ++ b = String x (a ++ b).
Proof. reflexivity. Qed.

Lemma append_assoc (a b c : string) : (a ++ b) ++ c = a ++ b ++ c.
Proof.
  induction a as [|x a IH]; [reflexivity|].
  now rewrite !append_cons, IH.
Qed.

Lemma prefix_empty (s : string) : String.prefix EmptyString s = true.
Proof. now destruct s. Qed.

Lemma prefix_refl_app (a b : string) : String.prefix a (a ++ b) = true.
Proof.
  induction a as [|x a IH]; simpl; [apply prefix_empty|].
  destruct (ascii_dec x x); [exact IH | congruence].
Qed.

Lemma contains_unfold (s sub : string) :
  contains s sub
  = String.prefix sub s
    || match s with EmptyString => false | String _ s' => contains s' sub end.
Proof. now destruct s. Qed.

Lemma contains_prefix (a b : string) : contains (a ++ b) a = true.
Proof. rewrite contains_unfold, prefix_refl_app. reflexivity. Qed.

Lemma contains_app_r (a b sub : string) :
  contains b sub = true -> contains (a ++ b) sub = true.
Proof.
  intros H. induction a as [|x a IH]; [exact H|].
  rewrite contains_unfold, append_cons, IH. apply orb_true_r.
Qed.

Lemma prefix_app_l (a b sub : string) :
  String.prefix sub a = true -> String.prefix sub (a ++ b) = true.
Proof.
  revert a. induction sub as [|x sub IH]; intros a H; [apply prefix_empty|].
  destruct a as [|y a]; [discriminate|]. simpl in *.
  destruct (ascii_dec x y); [now apply IH | discriminate].
Qed.

Lemma contains_app_l (a b sub : string) :
  contains a sub = true -> contains (a ++ b) sub = true.
Proof.
  induction a as [|x a IH]; intros H.
  - destruct sub; [|discriminate].
    rewrite contains_unfold, prefix_empty. reflexivity.
  - rewrite contains_unfold in H. apply orb_true_iff in H as [H|H].
    + rewrite contains_unfold, prefix_app_l by assumption. reflexivity.
    + rewrite contains_unfold, append_cons, IH by assumption.
      apply orb_true_r.
Qed.

Lemma contains_join (sep : string) (l : list string) (m sub : string) :
  In m l -> contains m sub = true -> contains (join sep l) sub = true.
Proof.
  intros Hin Hm. induction l as [|x l IH]; [contradiction|].
  destruct Hin as [->|Hin].
  - destruct l; [exact Hm | now apply contains_app_l].
  - destruct l as [|y l]; [contradiction|].
    change (join sep (x :: y :: l)) with (x ++ sep ++ join sep (y :: l)).
    apply contains_app_r, contains_app_r, IH, Hin.
Qed.

(** ** The shape of the destination *)

(** C3, refuted: [Load(nil)] without [SkipEnvFile] runs the file loader
    first: with a readable file the process environment has changed by the
    time the shape error is returned, and with no file the error returned
    is the file loader's, not a shape error. *)
Lemma shape_error_comes_after_file_load :
  Load reference Nil (map option_of [])
       (proc0 [] (Present [("HOST", "testhost")]))
  = (Some ShapeError,
     ({| environ := {["HOST" := "testhost"]};
         dotenv := Present [("HOST", "testhost")];
         debugLog := []; calls := [StepFile; StepDecode] |}, Nil))
  /\ Load reference Nil (map option_of []) (proc0 [] Absent)
     = (Some (FileLoadError "open .env: no such file or directory"),
        (called StepFile (proc0 [] Absent), Nil)).
Proof. split; vm_compute; reflexivity. Qed.

(** C3, amended: for a destination that is nil, or not a pointer, or a
    pointer to something else than a struct, a call whose file step is
    skipped or succeeds returns the decoder's shape error, whose message
    contains "expected a pointer"; the destination is untouched and neither
    the injector nor the validator runs.  The file loader, unless skipped,
    has run before. *)
Theorem shape_error_from_decoder
  (d : Dest) (opts : list Option) (p : Proc) (e1 : gmap string string) :
  is_struct_ptr d = false ->
  env_for_decode reference (applyOptions opts) p = inr e1 ->
  (Load reference d opts p).1 = Some ShapeError
  /\ contains (Error ShapeError) "expected a pointer" = true
  /\ (Load reference d opts p).2.2 = d
  /\ calls (Load reference d opts p).2.1
     = (calls p ++ calls_to_decode (applyOptions opts))%list
  /\ ~ In StepDefaults (calls_to_decode (applyOptions opts))
  /\ ~ In StepValidate (calls_to_decode (applyOptions opts))
  /\ (In StepFile (calls_to_decode (applyOptions opts))
      <-> skipEnv (applyOptions opts) = false).
Proof.
  intros Hd He. rewrite Load_steps. cbv zeta. rewrite He.
  assert (Hp : env_ParseWithOptions reference d (prefix (applyOptions opts)) e1
               = (d, Some ShapeError)).
  { destruct d; try reflexivity. discriminate. }
  rewrite Hp. unfold calls_to_decode.
  destruct (skipEnv (applyOptions opts)); simpl; rewrite <- ?app_assoc; simpl;
    (repeat split; try reflexivity; try intuition discriminate).
Qed.

(** The tests "nil destination" and "non-pointer destination". *)
Lemma shape_error_from_decoder_witness :
  (Load reference Nil (map option_of [OSkipEnvFile]) (proc0 [] Absent)).1
  = Some ShapeError
  /\ (Load reference (StructVal "TestConfig" (fields_of TestConfig))
           (map option_of [OSkipEnvFile]) (proc0 [] Absent)).1
     = Some ShapeError.
Proof.
  split.
  - apply (shape_error_from_decoder Nil (map option_of [OSkipEnvFile])
             (proc0 [] Absent) ∅); reflexivity.
  - apply (shape_error_from_decoder (StructVal "TestConfig" (fields_of TestConfig))
             (map option_of [OSkipEnvFile]) (proc0 [] Absent) ∅); reflexivity.
Defined.

(** ** Decode failures *)

Lemma decode_field_fails (pre : string) (e : gmap string string) (f : Field)
  (s : string) (cause : NumError) :
  e !! (pre ++ envTag (decl f)) = Some s ->
  s <> EmptyString ->
  (convert (Kind (decl f)) 32 s).2 = Some cause ->
  (decode_field pre e f).2
  = Some {| pe_field := Name (decl f); pe_kind := Kind (decl f);
            pe_literal := s; pe_cause := cause |}.
Proof.
  intros Hl Hs Hc. unfold decode_field. rewrite Hl.
  destruct s as [|a s]; [congruence|].
  destruct (convert (Kind (decl f)) 32 (String a s)) as [v [c|]]; simpl in *;
    congruence.
Qed.

Lemma decode_errors_collected (pre : string) (e : gmap string string)
  (fs : list Field) (f : Field) (pe : ParseError) :
  In f fs -> (decode_field pre e f).2 = Some pe ->
  In pe (omap snd (map (decode_field pre e) fs)).
Proof.
  intros Hin Hf. apply list_elem_of_In, list_elem_of_omap.
  exists (decode_field pre e f). split; [|exact Hf].
  apply list_elem_of_In, in_map, Hin.
Qed.

Lemma parse_error_msg_names_field (pe : ParseError) :
  contains (parse_error_msg pe) ("parse error on field " ++ dq ++ pe_field pe ++ dq)
  = true.
Proof.
  unfold parse_error_msg.
  set (rest := " of type " ++ _).
  replace ("parse error on field " ++ dq ++ pe_field pe ++ dq ++ rest)
    with (("parse error on field " ++ dq ++ pe_field pe ++ dq) ++ rest).
  - apply contains_prefix.
  - now rewrite !append_assoc.
Qed.

(** C4, refuted: [PORT=invalid] does not convert to an integer, yet the
    call without [SkipEnvFile] and without a file returns the file loader's
    error; and an empty value, which does not convert either, is skipped by
    the decoder, so that the call returns nil. *)
Lemma unconvertible_value_without_decode_error :
  (convert KInt 32 "invalid").2 = Some ErrSyntax
  /\ Load reference TestConfig (map option_of [])
          (proc0 [("PORT", "invalid")] Absent)
     = (Some (FileLoadError "open .env: no such file or directory"),
        (called StepFile (proc0 [("PORT", "invalid")] Absent), TestConfig))
  /\ (convert KInt 32 EmptyString).2 = Some ErrSyntax
  /\ (Load reference TestConfig (map option_of [OSkipEnvFile])
           (proc0 [("HOST", "localhost"); ("PORT", EmptyString)] Absent)).1
     = None.
Proof. repeat split; vm_compute; reflexivity. Qed.

(** C4, amended: when the call reaches the decoder (the file step is
    skipped or succeeds) with a pointer to a struct, and the decoder finds
    for some field a value that is not empty and does not convert to the
    field's type, [Load] returns a [DecodeError]; its message names the
    field in the form [parse error on field "Port"]; the injector and the
    validator have not run. *)
Theorem decode_failure_names_field
  (tname : string) (fs : list Field) (opts : list Option) (p : Proc)
  (e1 : gmap string string) (f : Field) (s : string) (cause : NumError) :
  env_for_decode reference (applyOptions opts) p = inr e1 ->
  In f fs ->
  e1 !! (prefix (applyOptions opts) ++ envTag (decl f)) = Some s ->
  s <> EmptyString ->
  (convert (Kind (decl f)) 32 s).2 = Some cause ->
  exists errs,
    (Load reference (PtrStruct tname fs) opts p).1 = Some (DecodeError errs)
    /\ In {| pe_field := Name (decl f); pe_kind := Kind (decl f);
             pe_literal := s; pe_cause := cause |} errs
    /\ contains (Error (DecodeError errs))
         ("parse error on field " ++ dq ++ Name (decl f) ++ dq) = true
    /\ calls (Load reference (PtrStruct tname fs) opts p).2.1
       = (calls p ++ calls_to_decode (applyOptions opts))%list
    /\ ~ In StepDefaults (calls_to_decode (applyOptions opts))
    /\ ~ In StepValidate (calls_to_decode (applyOptions opts)).
Proof.
  intros He Hin Hl Hs Hc.
  pose proof (decode_errors_collected _ _ fs f _ Hin
                (decode_field_fails _ _ f s cause Hl Hs Hc)) as Hpe.
  rewrite Load_steps. cbv zeta. rewrite He.
  cbn [env_ParseWithOptions reference ref_ParseWithOptions].
  destruct (omap snd (map (decode_field (prefix (applyOptions opts)) e1) fs))
    as [|pe0 errs] eqn:Herrs; [contradiction|].
  exists (pe0 :: errs). unfold calls_to_decode.
  split; [reflexivity|]. split; [exact Hpe|]. split.
  - cbn [Error]. apply contains_app_r.
    apply (contains_join _ _ (parse_error_msg
             {| pe_field := Name (decl f); pe_kind := Kind (decl f);
                pe_literal := s; pe_cause := cause |})).
    + apply in_map, Hpe.
    + apply (parse_error_msg_names_field
               {| pe_field := Name (decl f); pe_kind := Kind (decl f);
                  pe_literal := s; pe_cause := cause |}).
  - destruct (skipEnv (applyOptions opts)); simpl; rewrite <- ?app_assoc; simpl;
      intuition discriminate.
Qed.

(** The test "invalid port type". *)
Lemma decode_failure_names_field_witness :
  exists errs,
    (Load reference TestConfig (map option_of [OSkipEnvFile])
          (proc0 [("PORT", "invalid")] Absent)).1 = Some (DecodeError errs)
    /\ contains (Error (DecodeError errs))
         ("parse error on field " ++ dq ++ "Port" ++ dq) = true.
Proof.
  destruct (decode_failure_names_field "TestConfig" (fields_of TestConfig)
              (map option_of [OSkipEnvFile]) (proc0 [("PORT", "invalid")] Absent)
              (list_to_map [("PORT", "invalid")]) (zero_field PortDecl)
              "invalid" ErrSyntax)
    as (errs & H1 & _ & H3 & _).
  - reflexivity.
  - simpl; tauto.
  - vm_compute; reflexivity.
  - discriminate.
  - vm_compute; reflexivity.
  - exists errs. split; [exact H1 | exact H3].
Defined.

(** ** Validation *)

Lemma field_error_msg_validation (tname n : string) :
  contains (field_error_msg tname n) "validation" = true.
Proof.
  unfold field_error_msg.
  do 4 apply contains_app_r. apply contains_app_l. reflexivity.
Qed.

Lemma contains_refl (s : string) : contains s s = true.
Proof.
  rewrite contains_unfold.
  replace (String.prefix s s) with (String.prefix s (s ++ EmptyString)).
  - now rewrite prefix_refl_app.
  - f_equal. induction s as [|x s IH]; [reflexivity|]. now rewrite append_cons, IH.
Qed.

(** C5: when validation is not skipped and the destination, as the file
    step, the decoder and the injector have resolved it, violates one or
    more constraints, [Load] returns a [ValidationError]; its message
    contains "validation" and has one entry for every violating field, not
    only for the first; the destination stays as resolved. *)
Theorem validation_error_lists_every_violation
  (tname : string) (fs fs1 : list Field) (opts : list Option) (p : Proc)
  (e1 : gmap string string) :
  skipValid (applyOptions opts) = false ->
  env_for_decode reference (applyOptions opts) p = inr e1 ->
  ref_ParseWithOptions (PtrStruct tname fs) (prefix (applyOptions opts)) e1
  = (PtrStruct tname fs1, None) ->
  List.filter violates (map fill_field fs1) <> [] ->
  exists failed,
    (Load reference (PtrStruct tname fs) opts p).1 = Some (ValidationError tname failed)
    /\ failed = map (fun f => Name (decl f)) (List.filter violates (map fill_field fs1))
    /\ contains (Error (ValidationError tname failed)) "validation" = true
    /\ (forall f, In f (map fill_field fs1) -> violates f = true ->
          In (Name (decl f)) failed
          /\ contains (Error (ValidationError tname failed))
               (field_error_msg tname (Name (decl f))) = true)
    /\ (Load reference (PtrStruct tname fs) opts p).2.2
       = PtrStruct tname (map fill_field fs1).
Proof.
  intros Hv He Hd Hbad.
  exists (map (fun f => Name (decl f)) (List.filter violates (map fill_field fs1))).
  rewrite Load_steps. cbv zeta. rewrite He.
  change (env_ParseWithOptions reference) with ref_ParseWithOptions.
  rewrite Hd, Hv.
  cbn [fst snd defaults_SetDefaults validator_Struct reference ref_SetDefaults
       ref_validator_Struct].
  destruct (List.filter violates (map fill_field fs1)) as [|b bad] eqn:Hf;
    [congruence|].
  split; [reflexivity|]. split; [reflexivity|]. split; [|split; [|reflexivity]].
  - cbn [Error]. apply (contains_join _ _ (field_error_msg tname (Name (decl b)))).
    + simpl; tauto.
    + apply field_error_msg_validation.
  - intros f Hin Hviol.
    assert (Hfb : In f (b :: bad)).
    { rewrite <- Hf. apply filter_In. tauto. }
    split.
    + apply (in_map (fun f => Name (decl f))), Hfb.
    + cbn [Error]. apply (contains_join _ _ (field_error_msg tname (Name (decl f)))).
      * rewrite map_map. apply (in_map (fun f => field_error_msg tname (Name (decl f)))), Hfb.
      * apply contains_refl.
Qed.

(** The test "validation failure": [Host] is required and has no value. *)
Lemma validation_error_lists_every_violation_witness :
  exists failed,
    (Load reference TestConfig (map option_of [OSkipEnvFile]) (proc0 [] Absent)).1
    = Some (ValidationError "TestConfig" failed)
    /\ In "Host" failed
    /\ contains (Error (ValidationError "TestConfig" failed)) "validation" = true.
Proof.
  destruct (validation_error_lists_every_violation "TestConfig"
              (fields_of TestConfig) (fields_of TestConfig)
              (map option_of [OSkipEnvFile]) (proc0 [] Absent) ∅)
    as (failed & H1 & H2 & H3 & _).
  - reflexivity.
  - reflexivity.
  - vm_compute; reflexivity.
  - vm_compute; discriminate.
  - exists failed. split; [exact H1|]. split; [|exact H3].
    rewrite H2. vm_compute. tauto.
Defined.

(** ** Effects of [Load] *)

(** C9, refuted for [Load] of config.go: with no env file, no environment
    variables and no option at all, the call returns the file loader's
    error and [Port] is still 0: nothing was decoded or injected. *)
Lemma no_env_file_leaves_port_zero :
  Load reference HostPort (map option_of []) (proc0 [] Absent)
  = (Some (FileLoadError "open .env: no such file or directory"),
     (called StepFile (proc0 [] Absent), HostPort))
  /\ field_value "Port" HostPort = Some (VInt 0).
Proof. split; vm_compute; reflexivity. Qed.

(** C9, amended: [Load] leaves the file and the log alone; the process
    environment changes only through the file loader, and the destination
    only through the decoder and the injector, whose writes stay when a
    later step fails.  For the struct with a required [Host] and a [Port]
    defaulting to 8080, with no environment variables: with [SkipEnvFile],
    [Load] returns the validation error and [Port] holds 8080; so does the
    version that stats the file first when there is no file, after logging
    the absence. *)
Theorem load_effects_survive_failure :
  (forall (c : Collaborators) (d : Dest) (opts : list Option) (p : Proc),
      dotenv (Load c d opts p).2.1 = dotenv p
      /\ debugLog (Load c d opts p).2.1 = debugLog p
      /\ environ (Load c d opts p).2.1
         = match env_for_decode c (applyOptions opts) p with
           | inl _ => environ p
           | inr e1 => e1
           end
      /\ (Load c d opts p).2.2
         = match env_for_decode c (applyOptions opts) p with
           | inl _ => d
           | inr e1 =>
               match env_ParseWithOptions c d (prefix (applyOptions opts)) e1 with
               | (d1, Some _) => d1
               | (d1, None) => defaults_SetDefaults c d1
               end
           end)
  /\ (Load reference HostPort (map option_of [OSkipEnvFile]) (proc0 [] Absent)).1
     = Some (ValidationError "Config" ["Host"])
  /\ field_value "Port"
       (Load reference HostPort (map option_of [OSkipEnvFile]) (proc0 [] Absent)).2.2
     = Some (VInt 8080)
  /\ (StatFirst.Load reference HostPort (map option_of []) (proc0 [] Absent)).1
     = Some (ValidationError "Config" ["Host"])
  /\ field_value "Port"
       (StatFirst.Load reference HostPort (map option_of []) (proc0 [] Absent)).2.2
     = Some (VInt 8080)
  /\ debugLog (StatFirst.Load reference HostPort (map option_of []) (proc0 [] Absent)).2.1
     = ["env file does not exists"].
Proof.
  split; [exact Load_frame | repeat split; vm_compute; reflexivity].
Qed.

(** ** Precedence of environment, default and zero value *)

Lemma no_decode_errors (pre : string) (e : gmap string string)
  (fs : list Field) (f : Field) :
  omap snd (map (decode_field pre e) fs) = [] ->
  In f fs -> (decode_field pre e f).2 = None.
Proof.
  intros Hnil Hin.
  destruct (decode_field pre e f).2 as [pe|] eqn:E; [|reflexivity].
  pose proof (decode_errors_collected pre e fs f pe Hin E) as H.
  rewrite Hnil in H. contradiction.
Qed.

Lemma is_zero_zero (k : kind) : is_zero (zero k) = true.
Proof. now destruct k. Qed.

Lemma convert_empty (k : kind) (x : value) :
  convert k 32 EmptyString = (x, None) -> x = zero k.
Proof. destruct k; simpl; intros [= <-]; reflexivity. Qed.

(** What the decoder followed by the injector make of one zeroed field. *)
Lemma resolve_field (pre : string) (e : gmap string string) (f : Field) :
  val f = zero (Kind (decl f)) ->
  (decode_field pre e f).2 = None ->
  let f' := fill_field (decode_field pre e f).1 in
  let v := e !! (pre ++ envTag (decl f)) in
  decl f' = decl f
  /\ (v = None \/ v = Some EmptyString ->
      val f' = match defaultTag (decl f) with
               | Some lit => (convert (Kind (decl f)) 64 lit).1
               | None => zero (Kind (decl f))
               end)
  /\ (forall s x, v = Some s -> s <> EmptyString ->
        convert (Kind (decl f)) 32 s = (x, None) -> is_zero x = false ->
        val f' = x)
  /\ (forall s x, v = Some s ->
        convert (Kind (decl f)) 32 s = (x, None) -> is_zero x = true ->
        val f' = match defaultTag (decl f) with
                 | Some lit => (convert (Kind (decl f)) 64 lit).1
                 | None => x
                 end).
Proof.
  intros Hz Herr f' v. subst f' v. unfold decode_field in *.
  assert (Hfill : fill_field f = set_val f
            match defaultTag (decl f) with
            | Some lit => (convert (Kind (decl f)) 64 lit).1
            | None => zero (Kind (decl f))
            end).
  { unfold fill_field. rewrite Hz, is_zero_zero.
    destruct (defaultTag (decl f)); [reflexivity|].
    destruct f as [fd fv]; simpl in *. now subst fv. }
  destruct (e !! (pre ++ envTag (decl f))) as [s|] eqn:El.
  - destruct s as [|a s].
    + cbn [fst]. rewrite Hfill. cbn [decl val set_val].
      split; [reflexivity|]. split; [reflexivity|]. split.
      * intros s x [= <-]. congruence.
      * intros s x [= <-] Hc _. apply convert_empty in Hc. subst x. reflexivity.
    + destruct (convert (Kind (decl f)) 32 (String a s)) as [x [c|]] eqn:Ec;
        [discriminate|].
      cbn [fst]. unfold fill_field. cbn [set_val decl val].
      split; [now destruct (is_zero x), (defaultTag (decl f))|].
      split; [intros [?|?]; discriminate|]. split.
      * intros s' x' [= <-] _. rewrite Ec. intros [= <-] Hx. now rewrite Hx.
      * intros s' x' [= <-]. rewrite Ec. intros [= <-] Hx. rewrite Hx.
        now destruct (defaultTag (decl f)).
  - cbn [fst]. rewrite Hfill. cbn [decl val set_val].
    split; [reflexivity|]. split; [reflexivity|]. split; intros; discriminate.
Qed.

(** C1, refuted: [PORT=0] is set and converts to 0, the call succeeds, and
    [Port] holds the default 8080, because the injector fills every field
    that holds its zero value. *)
Lemma env_zero_value_gives_way_to_default :
  convert KInt 32 "0" = (VInt 0, None)
  /\ (Load reference TestConfig (map option_of [OSkipEnvFile])
           (proc0 [("HOST", "localhost"); ("PORT", "0")] Absent)).1 = None
  /\ field_value "Port"
       (Load reference TestConfig (map option_of [OSkipEnvFile])
             (proc0 [("HOST", "localhost"); ("PORT", "0")] Absent)).2.2
     = Some (VInt 8080).
Proof. repeat split; vm_compute; reflexivity. Qed.

(** C1, amended: after a successful [Load] into a zeroed struct, every
    field keeps its declaration and, with [v] the value the environment
    (after the file step) has for the field's prefixed name:
    - with no value, or an empty one, the field holds the converted default
      literal if a default is declared, and its zero value otherwise;
    - with a value that is not empty and converts to something else than the
      zero value, the field holds that value, whatever the default;
    - with a value that converts to the zero value, the field holds the
      converted default if one is declared, and the zero value otherwise. *)
Theorem load_precedence
  (tname : string) (fs : list Field) (opts : list Option) (p : Proc) :
  Forall (fun f => val f = zero (Kind (decl f))) fs ->
  (Load reference (PtrStruct tname fs) opts p).1 = None ->
  exists fs',
    (Load reference (PtrStruct tname fs) opts p).2.2 = PtrStruct tname fs'
    /\ Forall2
         (fun f f' =>
            decl f' = decl f
            /\ (environ (Load reference (PtrStruct tname fs) opts p).2.1
                  !! (prefix (applyOptions opts) ++ envTag (decl f)) = None
                \/ environ (Load reference (PtrStruct tname fs) opts p).2.1
                     !! (prefix (applyOptions opts) ++ envTag (decl f))
                   = Some EmptyString ->
                val f' = match defaultTag (decl f) with
                         | Some lit => (convert (Kind (decl f)) 64 lit).1
                         | None => zero (Kind (decl f))
                         end)
            /\ (forall s x,
                  environ (Load reference (PtrStruct tname fs) opts p).2.1
                    !! (prefix (applyOptions opts) ++ envTag (decl f)) = Some s ->
                  s <> EmptyString ->
                  convert (Kind (decl f)) 32 s = (x, None) ->
                  is_zero x = false ->
                  val f' = x)
            /\ (forall s x,
                  environ (Load reference (PtrStruct tname fs) opts p).2.1
                    !! (prefix (applyOptions opts) ++ envTag (decl f)) = Some s ->
                  convert (Kind (decl f)) 32 s = (x, None) ->
                  is_zero x = true ->
                  val f' = match defaultTag (decl f) with
                           | Some lit => (convert (Kind (decl f)) 64 lit).1
                           | None => x
                           end))
         fs fs'.
Proof.
  intros Hzero Hnil.
  destruct (Load_nil_steps _ _ _ _ Hnil) as (e1 & d1 & He & Hd).
  destruct (Load_frame reference (PtrStruct tname fs) opts p) as (_ & _ & -> & ->).
  rewrite He, Hd. clear Hnil.
  cbn [env_ParseWithOptions reference ref_ParseWithOptions] in Hd.
  destruct (omap snd (map (decode_field (prefix (applyOptions opts)) e1) fs))
    as [|pe errs] eqn:Herrs; [|discriminate].
  injection Hd as <-.
  exists (map fill_field
            (map fst (map (decode_field (prefix (applyOptions opts)) e1) fs))).
  split; [reflexivity|].
  rewrite !map_map. apply Forall2_fmap_r, Forall_Forall2_diag.
  apply Forall_forall. intros f Hin.
  apply (resolve_field (prefix (applyOptions opts)) e1 f).
  - exact (proj1 (Forall_forall _ _) Hzero f Hin).
  - apply (no_decode_errors _ _ fs f Herrs), list_elem_of_In, Hin.
Qed.

(** The tests "with environment variables": all three values are taken
    from the environment. *)
Lemma load_precedence_witness :
  exists fs',
    (Load reference TestConfig (map option_of [OSkipEnvFile])
          (proc0 [("HOST", "localhost"); ("PORT", "9090"); ("DEBUG", "true")]
                 Absent)).2.2
    = PtrStruct "TestConfig" fs'
    /\ Forall2 (fun f f' => decl f' = decl f) (fields_of TestConfig) fs'.
Proof.
  destruct (load_precedence "TestConfig" (fields_of TestConfig)
              (map option_of [OSkipEnvFile])
              (proc0 [("HOST", "localhost"); ("PORT", "9090"); ("DEBUG", "true")]
                     Absent))
    as (fs' & H1 & H2).
  - repeat constructor.
  - vm_compute. reflexivity.
  - exists fs'. split; [exact H1|].
    eapply Forall2_impl; [exact H2|]. intros f f' (H & _). exact H.
Defined.

(** ** The pretty handler *)

Section HandlerFacts.
Import Logging.
Context {E : Type}.
Context (colorize : Color -> string -> string).
Context (Level_String : Z -> string).
Context (Time_Format : Z -> string).
Context (frame_of : Z -> string * Z).
Context (fmt_Sprint : any -> string).
Context (json_MarshalIndent : gmap string any -> E + string).

Lemma on_attr_insert (a : Attr) (fields : gmap string any) :
  on_attr fmt_Sprint a fields = (<[Key a := stored fmt_Sprint a]> fields, true).
Proof.
  unfold stored, on_attr.
  destruct (String.eqb (Key a) "error"); [destruct (Value a)|];
    cbn [fst]; rewrite lookup_insert_eq; reflexivity.
Qed.

Lemma Record_Attrs_app (l1 l2 : list Attr) (fields : gmap string any) :
  Record_Attrs (on_attr fmt_Sprint) (l1 ++ l2)%list fields
  = Record_Attrs (on_attr fmt_Sprint) l2 (Record_Attrs (on_attr fmt_Sprint) l1 fields).
Proof.
  revert fields. induction l1 as [|a l1 IH]; intros fields; [reflexivity|].
  cbn [app Record_Attrs]. rewrite on_attr_insert. apply IH.
Qed.

Lemma Record_Attrs_other (l : list Attr) (fields : gmap string any) (k : string) :
  Forall (fun a => Key a <> k) l ->
  Record_Attrs (on_attr fmt_Sprint) l fields !! k = fields !! k.
Proof.
  revert fields. induction l as [|a l IH]; intros fields H; [reflexivity|].
  apply Forall_cons in H as [Ha Hl].
  cbn [Record_Attrs]. rewrite on_attr_insert, IH by assumption.
  now apply lookup_insert_ne.
Qed.

Lemma fields_last_write (r : slog_Record) (l1 l2 : list Attr) (a : Attr) :
  attrs r = (l1 ++ a :: l2)%list ->
  Forall (fun a' => Key a' <> Key a) l2 ->
  fields_of_record fmt_Sprint r !! Key a = Some (stored fmt_Sprint a).
Proof.
  intros Hr Hl2. unfold fields_of_record. rewrite Hr, Record_Attrs_app.
  cbn [Record_Attrs]. rewrite on_attr_insert, Record_Attrs_other by assumption.
  apply lookup_insert_eq.
Qed.

(** C10: for an attribute of the record that no later attribute with the
    same key overwrites: under the key "error" the fields map holds a
    string, the message of an error, a string itself, or [fmt.Sprint] of
    any other value; under any other key it holds the value itself; and
    [Handle] returns nil whenever the fields map marshals, having printed
    one line. *)
Theorem handle_renders_error_attribute
  (r : slog_Record) (out : list string) (l1 l2 : list Attr) (a : Attr) :
  attrs r = (l1 ++ a :: l2)%list ->
  Forall (fun a' => Key a' <> Key a) l2 ->
  (Key a = "error" -> forall msg, Value a = AnyError msg ->
     fields_of_record fmt_Sprint r !! "error" = Some (AnyString msg))
  /\ (Key a = "error" -> forall s, Value a = AnyString s ->
        fields_of_record fmt_Sprint r !! "error" = Some (AnyString s))
  /\ (Key a = "error" ->
      (forall msg, Value a <> AnyError msg) -> (forall s, Value a <> AnyString s) ->
        fields_of_record fmt_Sprint r !! "error"
        = Some (AnyString (fmt_Sprint (Value a))))
  /\ (Key a <> "error" ->
        fields_of_record fmt_Sprint r !! Key a = Some (Value a))
  /\ (forall b, json_MarshalIndent (fields_of_record fmt_Sprint r) = inr b ->
        exists line,
          Handle colorize Level_String Time_Format frame_of fmt_Sprint
                 json_MarshalIndent r out
          = (None, (out ++ [line])%list)).
Proof.
  intros Hr Hl2. pose proof (fields_last_write r l1 l2 a Hr Hl2) as H.
  unfold stored, on_attr in H.
  repeat split.
  - intros Hk msg Hv. rewrite Hk, Hv in H. exact H.
  - intros Hk s Hv. rewrite Hk, Hv in H. exact H.
  - intros Hk Herr Hstr. rewrite Hk in H. cbn [String.eqb] in H.
    destruct (Value a) eqn:Hv; try exact H.
    + now destruct (Herr msg).
    + now destruct (Hstr s).
  - intros Hk. apply String.eqb_neq in Hk. rewrite Hk in H.
    cbn [fst] in H. rewrite lookup_insert_eq in H. exact H.
  - intros b Hb. unfold Handle. rewrite Hb. eexists. reflexivity.
Qed.

End HandlerFacts.

(** An error logged under the key "error", next to another attribute. *)
Lemma handle_renders_error_attribute_witness :
  Logging.fields_of_record Logging.plain_Sprint Logging.failed_record !! "error"
  = Some (Logging.AnyString "boom")
  /\ (Logging.plain_Handle Logging.failed_record []).1 = None.
Proof.
  destruct (handle_renders_error_attribute
              (fun _ s => s) (fun _ => "LEVEL") (fun _ => "[00:00:00.000]")
              (fun _ => ("logger.go", 0)) Logging.plain_Sprint Logging.plain_Marshal
              Logging.failed_record [] []
              [ {| Logging.Key := "attempt"; Logging.Value := Logging.AnyInt 0 |} ]
              {| Logging.Key := "error"; Logging.Value := Logging.AnyError "boom" |})
    as (H1 & _ & _ & _ & H5).
  - reflexivity.
  - repeat constructor. discriminate.
  - split.
    + apply H1; reflexivity.
    + edestruct H5 as (line & Hline); [vm_compute; reflexivity|].
      unfold Logging.plain_Handle. rewrite Hline. reflexivity.
Defined.

(** * Further properties *)

(** ** When [Load] returns nil *)

Lemma StatFirst_Load_steps' (c : Collaborators) (d : Dest) (opts : list Option) (p : Proc) :
  StatFirst.Load c d opts p =
  let o := applyOptions opts in
  let p0 := if skipEnv o then p
            else if StatFirst.stat_IsNotExist p
                 then slog_Debug "env file does not exists" p
                 else called StepFile p in
  match stat_env_for_decode c o p with
  | inl e => (Some e, (p0, d))
  | inr e1 =>
      let p1 := called StepDecode (with_environ e1 p0) in
      match env_ParseWithOptions c d (prefix o) e1 with
      | (d1, Some e) => (Some e, (p1, d1))
      | (d1, None) =>
          let d2 := defaults_SetDefaults c d1 in
          let p2 := called StepDefaults p1 in
          if skipValid o then (None, (p2, d2))
          else (validator_Struct c d2, (called StepValidate p2, d2))
      end
  end.
Proof.
  rewrite StatFirst_Load_steps. cbv zeta. unfold stat_env_for_decode.
  destruct (skipEnv (applyOptions opts)) eqn:Hs; cbn [orb].
  - pose proof (Load_steps c d opts p) as H. cbv zeta in H.
    unfold env_for_decode in H. rewrite Hs in H. rewrite <- H.
    unfold Load. rewrite Hs. reflexivity.
  - destruct (StatFirst.stat_IsNotExist p) eqn:Hn.
    + unfold decode_onward, bind, call_ParseWithOptions, call_SetDefaults,
        call_validate, ret, as_error.
      destruct p as [en f lg cs]; cbn.
      destruct (env_ParseWithOptions c d (prefix (applyOptions opts)) en)
        as [d1 [e|]]; cbn; [reflexivity|].
      destruct (skipValid (applyOptions opts)); cbn; [reflexivity|].
      destruct (validator_Struct c (defaults_SetDefaults c d1)); reflexivity.
    + rewrite Load_steps. cbv zeta. unfold env_for_decode. rewrite Hs. reflexivity.
Qed.

(** X1: both versions of [Load] return nil exactly when every step they
    run succeeds: the step before the decoder, the decoder, and the
    validator unless it is skipped. *)
Theorem load_nil_iff_steps_succeed
  (c : Collaborators) (d : Dest) (opts : list Option) (p : Proc) :
  ((Load c d opts p).1 = None <->
   exists e1 d1,
     env_for_decode c (applyOptions opts) p = inr e1
     /\ env_ParseWithOptions c d (prefix (applyOptions opts)) e1 = (d1, None)
     /\ (skipValid (applyOptions opts) = true
         \/ validator_Struct c (defaults_SetDefaults c d1) = None))
  /\ ((StatFirst.Load c d opts p).1 = None <->
      exists e1 d1,
        stat_env_for_decode c (applyOptions opts) p = inr e1
        /\ env_ParseWithOptions c d (prefix (applyOptions opts)) e1 = (d1, None)
        /\ (skipValid (applyOptions opts) = true
            \/ validator_Struct c (defaults_SetDefaults c d1) = None)).
Proof.
  split.
  - rewrite Load_steps. cbv zeta.
    destruct (env_for_decode c (applyOptions opts) p) as [e|e1].
    { split; [discriminate | intros (? & ? & [=] & _)]. }
    destruct (env_ParseWithOptions c d (prefix (applyOptions opts)) e1)
      as [d1 [e|]] eqn:Hd.
    { split; [discriminate|]. intros (e2 & d2 & [= <-] & H & _).
      rewrite Hd in H. discriminate. }
    destruct (skipValid (applyOptions opts)); cbn [fst].
    + split; [|reflexivity]. intros _. exists e1, d1. rewrite Hd. auto.
    + split.
      * intros H. exists e1, d1. rewrite Hd. auto.
      * intros (e2 & d2 & [= <-] & H & [?|Hv]); [discriminate|].
        rewrite Hd in H. injection H as <-. exact Hv.
  - rewrite StatFirst_Load_steps'. cbv zeta.
    destruct (stat_env_for_decode c (applyOptions opts) p) as [e|e1].
    { split; [discriminate | intros (? & ? & [=] & _)]. }
    destruct (env_ParseWithOptions c d (prefix (applyOptions opts)) e1)
      as [d1 [e|]] eqn:Hd.
    { split; [discriminate|]. intros (e2 & d2 & [= <-] & H & _).
      rewrite Hd in H. discriminate. }
    destruct (skipValid (applyOptions opts)); cbn [fst].
    + split; [|reflexivity]. intros _. exists e1, d1. rewrite Hd. auto.
    + split.
      * intros H. exists e1, d1. rewrite Hd. auto.
      * intros (e2 & d2 & [= <-] & H & [?|Hv]); [discriminate|].
        rewrite Hd in H. injection H as <-. exact Hv.
Qed.

(** ** More on options *)

Lemma skipEnv_fold (ks : list OptionKind) (o : configOptions) :
  skipEnv (fold_left (fun o opt => opt o) (map option_of ks) o)
  = skipEnv o || existsb (fun k => match k with OSkipEnvFile => true | _ => false end) ks.
Proof.
  revert o. induction ks as [|k ks IH]; intros o; simpl.
  - now rewrite orb_false_r.
  - rewrite IH. destruct k; simpl; try reflexivity. now rewrite orb_true_r.
Qed.

Lemma skipValid_fold (ks : list OptionKind) (o : configOptions) :
  skipValid (fold_left (fun o opt => opt o) (map option_of ks) o)
  = skipValid o || existsb (fun k => match k with OSkipValidation => true | _ => false end) ks.
Proof.
  revert o. induction ks as [|k ks IH]; intros o; simpl.
  - now rewrite orb_false_r.
  - rewrite IH. destruct k; simpl; try reflexivity. now rewrite orb_true_r.
Qed.

(** X2: a flag of the options record is set exactly when its option occurs
    somewhere among the arguments, however often and wherever: no option
    clears a flag; and without any [WithPrefix] the prefix is empty. *)
Theorem option_flags_iff_given (ks : list OptionKind) :
  (skipEnv (applyOptions (map option_of ks)) = true <-> In OSkipEnvFile ks)
  /\ (skipValid (applyOptions (map option_of ks)) = true <-> In OSkipValidation ks)
  /\ prefix (applyOptions
               (map option_of (List.filter (fun k => negb (is_WithPrefix k)) ks)))
     = EmptyString.
Proof.
  unfold applyOptions. rewrite skipEnv_fold, skipValid_fold. cbn [skipEnv skipValid zeroOptions orb].
  split; [|split].
  - rewrite existsb_exists. split.
    + intros (k & Hin & Hk). now destruct k.
    + intros H. now exists OSkipEnvFile.
  - rewrite existsb_exists. split.
    + intros (k & Hin & Hk). now destruct k.
    + intros H. now exists OSkipValidation.
  - rewrite prefix_kept; [reflexivity|].
    induction ks as [|k ks IH]; [reflexivity|]. cbn [List.filter].
    destruct (negb (is_WithPrefix k)) eqn:E; [|exact IH].
    cbn [forallb]. now rewrite E.
Qed.

Lemma option_of_commute (a b : OptionKind) (o : configOptions) :
  is_WithPrefix a && is_WithPrefix b = false ->
  option_of a (option_of b o) = option_of b (option_of a o).
Proof. destruct a, b; simpl; intros H; try reflexivity; discriminate. Qed.

(** X3: two neighbouring options may be swapped without changing what
    either version of [Load] does, unless both are [WithPrefix]. *)
Theorem neighbouring_options_commute
  (c : Collaborators) (d : Dest) (l1 l2 : list OptionKind) (a b : OptionKind) (p : Proc) :
  is_WithPrefix a && is_WithPrefix b = false ->
  Load c d (map option_of (l1 ++ a :: b :: l2)) p
  = Load c d (map option_of (l1 ++ b :: a :: l2)) p
  /\ StatFirst.Load c d (map option_of (l1 ++ a :: b :: l2)) p
     = StatFirst.Load c d (map option_of (l1 ++ b :: a :: l2)) p.
Proof.
  intros H.
  assert (Ho : applyOptions (map option_of (l1 ++ a :: b :: l2))
               = applyOptions (map option_of (l1 ++ b :: a :: l2))).
  { unfold applyOptions. rewrite !map_app, !fold_left_app. cbn [map fold_left].
    now rewrite (option_of_commute b a) by (now rewrite andb_comm). }
  unfold Load, StatFirst.Load. now rewrite Ho.
Qed.

(** The test "multiple options", with the first two options swapped. *)
Lemma neighbouring_options_commute_witness :
  Load reference TestConfig
       (map option_of [OSkipEnvFile; OWithPrefix "APP_"; OSkipValidation])
       (proc0 [("APP_HOST", "localhost")] Absent)
  = Load reference TestConfig
       (map option_of [OWithPrefix "APP_"; OSkipEnvFile; OSkipValidation])
       (proc0 [("APP_HOST", "localhost")] Absent).
Proof.
  apply (neighbouring_options_commute reference TestConfig [] [OSkipValidation]
           OSkipEnvFile (OWithPrefix "APP_")).
  reflexivity.
Defined.

(** ** The two versions of [Load] side by side *)

Lemma applyOptions_SkipEnvFile (opts : list Option) :
  applyOptions (opts ++ [SkipEnvFile])
  = {| prefix := prefix (applyOptions opts); skipEnv := true;
       skipValid := skipValid (applyOptions opts) |}.
Proof. now rewrite applyOptions_snoc. Qed.

(** X4: the version of [Load] that stats the file differs from the one of
    config.go only when the file step is not skipped and the file is
    absent; it then does what config.go does with a [SkipEnvFile] added at
    the end of the options, and logs one debug message. *)
Theorem stat_first_is_load_or_skip
  (c : Collaborators) (d : Dest) (opts : list Option) (p : Proc) :
  StatFirst.Load c d opts p
  = if skipEnv (applyOptions opts) || negb (StatFirst.stat_IsNotExist p)
    then Load c d opts p
    else ((Load c d (opts ++ [SkipEnvFile]) p).1,
          (slog_Debug "env file does not exists" (Load c d (opts ++ [SkipEnvFile]) p).2.1,
           (Load c d (opts ++ [SkipEnvFile]) p).2.2)).
Proof.
  destruct (skipEnv (applyOptions opts)) eqn:Hs; cbn [orb].
  - rewrite StatFirst_Load_steps. cbv zeta. rewrite Hs.
    unfold Load. now rewrite Hs.
  - destruct (StatFirst.stat_IsNotExist p) eqn:Hn; cbn [negb].
    + rewrite StatFirst_Load_steps', Load_steps. cbv zeta.
      rewrite applyOptions_SkipEnvFile. unfold stat_env_for_decode, env_for_decode.
      rewrite Hs, Hn. cbn [orb skipEnv prefix skipValid].
      destruct p as [en f lg cs]; cbn.
      destruct (env_ParseWithOptions c d (prefix (applyOptions opts)) en)
        as [d1 [e|]]; cbn; [reflexivity|].
      destruct (skipValid (applyOptions opts)); reflexivity.
    + rewrite StatFirst_Load_steps. cbv zeta. now rewrite Hs, Hn.
Qed.

(** X5: with [SkipEnvFile] applied, [Load] neither reads the file nor calls
    the file loader: another file and another loader give the same error
    and the same destination, the process environment stays as it was, and
    the two versions of [Load] coincide. *)
Theorem skip_env_file_ignores_file
  (c : Collaborators) (d : Dest) (ks : list OptionKind) (p : Proc) :
  In OSkipEnvFile ks ->
  (forall g f,
      Load (with_file_loader c g) d (map option_of ks) (with_dotenv f p)
      = ((Load c d (map option_of ks) p).1,
         (with_dotenv f (Load c d (map option_of ks) p).2.1,
          (Load c d (map option_of ks) p).2.2)))
  /\ environ (Load c d (map option_of ks) p).2.1 = environ p
  /\ StatFirst.Load c d (map option_of ks) p = Load c d (map option_of ks) p.
Proof.
  intros Hin. pose proof (skipEnv_applied ks Hin) as Hs.
  split; [|split].
  - intros g f. rewrite !Load_steps. cbv zeta. unfold env_for_decode. rewrite Hs.
    cbn [env_ParseWithOptions defaults_SetDefaults validator_Struct with_file_loader
         environ with_dotenv].
    destruct (env_ParseWithOptions c d (prefix (applyOptions (map option_of ks)))
                (environ p)) as [d1 [e|]]; [reflexivity|].
    destruct (skipValid (applyOptions (map option_of ks))); reflexivity.
  - destruct (Load_frame c d (map option_of ks) p) as (_ & _ & -> & _).
    unfold env_for_decode. now rewrite Hs.
  - rewrite StatFirst_Load_steps. cbv zeta. rewrite Hs. unfold Load. now rewrite Hs.
Qed.

(** The test "skip validation" with a file the call never looks at. *)
Lemma skip_env_file_ignores_file_witness :
  Load (with_file_loader reference (fun _ _ => inl ShapeError)) TestConfig
       (map option_of [OSkipEnvFile; OSkipValidation])
       (with_dotenv (Unreadable "permission denied") (proc0 [] Absent))
  = ((Load reference TestConfig (map option_of [OSkipEnvFile; OSkipValidation])
           (proc0 [] Absent)).1,
     (with_dotenv (Unreadable "permission denied")
        (Load reference TestConfig (map option_of [OSkipEnvFile; OSkipValidation])
              (proc0 [] Absent)).2.1,
      (Load reference TestConfig (map option_of [OSkipEnvFile; OSkipValidation])
            (proc0 [] Absent)).2.2)).
Proof.
  apply (skip_env_file_ignores_file reference TestConfig
           [OSkipEnvFile; OSkipValidation] (proc0 [] Absent)).
  simpl; tauto.
Defined.

(** ** More on the pretty handler of logger.go *)

Section HandlerMore.
Import Logging.
Context {E : Type}.
Context (colorize : Color -> string -> string).
Context (Level_String : Z -> string).
Context (Time_Format : Z -> string).
Context (frame_of : Z -> string * Z).
Context (fmt_Sprint : any -> string).
Context (json_MarshalIndent : gmap string any -> E + string).

Lemma Record_Attrs_snoc (l : list Attr) (a : Attr) (fields : gmap string any) :
  Record_Attrs (on_attr fmt_Sprint) (l ++ [a])%list fields
  = <[Key a := stored fmt_Sprint a]> (Record_Attrs (on_attr fmt_Sprint) l fields).
Proof. rewrite Record_Attrs_app. cbn [Record_Attrs]. now rewrite on_attr_insert. Qed.

Lemma stored_error_is_string (a : Attr) :
  Key a = "error" -> exists s, stored fmt_Sprint a = AnyString s.
Proof.
  intros Hk. unfold stored, on_attr. rewrite Hk. cbn [String.eqb Ascii.eqb Bool.eqb].
  destruct (Value a); cbn [fst]; rewrite lookup_insert_eq; eauto.
Qed.

Lemma lookup_key_of_attr (l : list Attr) (a : Attr) :
  NoDup (map Key l) -> In a l ->
  Record_Attrs (on_attr fmt_Sprint) l ∅ !! Key a = Some (stored fmt_Sprint a).
Proof.
  intros Hnd Hin. apply in_split in Hin as (l1 & l2 & ->).
  rewrite Record_Attrs_app. cbn [Record_Attrs].
  rewrite on_attr_insert, Record_Attrs_other; [apply lookup_insert_eq|].
  rewrite map_app in Hnd. apply NoDup_app in Hnd as (_ & _ & Hnd).
  cbn [map] in Hnd. apply NoDup_cons in Hnd as (Hnotin & _).
  apply Forall_forall. intros a' Ha' Heq. apply Hnotin.
  rewrite <- Heq. apply list_elem_of_In, in_map, list_elem_of_In, Ha'.
Qed.

Lemma lookup_no_attr (l : list Attr) (k : string) :
  ~ In k (map Key l) -> Record_Attrs (on_attr fmt_Sprint) l ∅ !! k = None.
Proof.
  intros Hk. rewrite Record_Attrs_other; [apply lookup_empty|].
  apply Forall_forall. intros a Ha Heq. apply Hk. rewrite <- Heq.
  apply in_map, list_elem_of_In, Ha.
Qed.

(** X6: whatever the attributes of the record are, and however often the
    key "error" occurs among them, the fields map holds a string under
    "error" or nothing at all; it holds nothing exactly when no attribute
    has that key. *)
Theorem error_field_is_always_a_string (r : slog_Record) :
  match fields_of_record fmt_Sprint r !! "error" with
  | Some (AnyString _) => In "error" (map Key (attrs r))
  | Some _ => False
  | None => ~ In "error" (map Key (attrs r))
  end.
Proof.
  unfold fields_of_record. induction (attrs r) as [|a l IH] using rev_ind.
  - cbn. rewrite lookup_empty. tauto.
  - rewrite Record_Attrs_snoc, map_app, lookup_insert. cbn [map].
    destruct (decide (Key a = "error")) as [Hk|Hk].
    + destruct (stored_error_is_string a Hk) as (s & ->).
      apply in_or_app. right. left. exact Hk.
    + destruct (Record_Attrs (on_attr fmt_Sprint) l ∅ !! "error") as [v|].
      * destruct v; try exact IH. apply in_or_app. left. exact IH.
      * intros H. apply in_app_or in H. destruct H as [H|H]; [exact (IH H)|].
        destruct H as [H|[]]. exact (Hk H).
Qed.

(** X7: the keys of the fields map are exactly the keys of the record's
    attributes; the map never has more entries than the record has
    attributes, and it has as many when the keys are distinct. *)
Theorem fields_keys_are_attribute_keys (r : slog_Record) :
  dom (fields_of_record fmt_Sprint r) = list_to_set (map Key (attrs r))
  /\ (size (fields_of_record fmt_Sprint r) <= length (attrs r))%nat
  /\ (NoDup (map Key (attrs r)) ->
      size (fields_of_record fmt_Sprint r) = length (attrs r)).
Proof.
  unfold fields_of_record.
  assert (Hdom : forall l : list Attr,
             dom (Record_Attrs (on_attr fmt_Sprint) l ∅)
             = (list_to_set (map Key l) : gset string)).
  { induction l as [|a l IH] using rev_ind.
    - cbn. apply dom_empty_L.
    - rewrite Record_Attrs_snoc, dom_insert_L, IH, map_app, list_to_set_app_L.
      cbn [map list_to_set]. rewrite (right_id_L ∅ (∪)). apply (comm_L (∪)). }
  split; [apply Hdom|]. split.
  - induction (attrs r) as [|a l IH] using rev_ind;
      [cbn [Record_Attrs length]; rewrite map_size_empty; lia|].
    rewrite Record_Attrs_snoc, length_app. cbn [length].
    pose proof (map_size_insert (Key a) (stored fmt_Sprint a)
                  (Record_Attrs (on_attr fmt_Sprint) l ∅)) as Hs.
    destruct (Record_Attrs (on_attr fmt_Sprint) l ∅ !! Key a);
      unfold id in Hs; rewrite Hs; lia.
  - intros Hnd. rewrite <- size_dom, Hdom, size_list_to_set by exact Hnd.
    apply length_map.
Qed.

Lemma fields_of_permutation (l l' : list Attr) :
  Permutation l l' -> NoDup (map Key l) ->
  Record_Attrs (on_attr fmt_Sprint) l' ∅ = Record_Attrs (on_attr fmt_Sprint) l ∅.
Proof.
  intros Hp Hnd.
  assert (Hnd' : NoDup (map Key l')).
  { apply NoDup_ListNoDup. apply NoDup_ListNoDup in Hnd.
    eapply Permutation_NoDup; [apply Permutation_map, Hp | exact Hnd]. }
  apply map_eq. intros k.
  destruct (in_dec string_dec k (map Key l)) as [Hin|Hnin].
  - apply in_map_iff in Hin as (a & <- & Ha).
    rewrite (lookup_key_of_attr l a Hnd Ha).
    apply lookup_key_of_attr; [exact Hnd'|].
    eapply Permutation_in; [exact Hp | exact Ha].
  - rewrite (lookup_no_attr l k Hnin). apply lookup_no_attr.
    intros Hin. apply Hnin.
    eapply Permutation_in; [apply Permutation_sym, Permutation_map, Hp | exact Hin].
Qed.

(** X8: when the keys of the attributes are distinct, their order does not
    matter: a record with the same attributes in another order gives the
    same return value and the same printed line. *)
Theorem handle_ignores_attribute_order
  (r : slog_Record) (l' : list Attr) (out : list string) :
  Permutation (attrs r) l' ->
  NoDup (map Key (attrs r)) ->
  Handle colorize Level_String Time_Format frame_of fmt_Sprint json_MarshalIndent
         {| Time := Time r; Message := Message r; Level := Level r; PC := PC r;
            attrs := l' |} out
  = Handle colorize Level_String Time_Format frame_of fmt_Sprint json_MarshalIndent
           r out.
Proof.
  intros Hp Hnd. unfold Handle, fields_of_record. cbn [Time Message Level PC attrs].
  now rewrite (fields_of_permutation (attrs r) l' Hp Hnd).
Qed.

(** X9: [Handle] prints nothing and returns the marshaller's error when
    the fields map does not marshal; otherwise it returns nil after adding
    exactly one line to the output, whatever the level of the record; the
    line ends with a newline and contains the coloured message and the
    coloured JSON text. *)
Theorem handle_prints_one_line_or_fails (r : slog_Record) (out : list string) :
  match json_MarshalIndent (fields_of_record fmt_Sprint r) with
  | inl err =>
      Handle colorize Level_String Time_Format frame_of fmt_Sprint json_MarshalIndent
             r out = (Some err, out)
  | inr b =>
      exists body,
        Handle colorize Level_String Time_Format frame_of fmt_Sprint
               json_MarshalIndent r out
        = (None, (out ++ [(body ++ nl)%string])%list)
        /\ contains body (colorize Cyan (Message r)) = true
        /\ contains body (colorize White b) = true
  end.
Proof.
  unfold Handle.
  destruct (json_MarshalIndent (fields_of_record fmt_Sprint r)) as [err|b];
    [reflexivity|].
  eexists. split; [reflexivity|]. split.
  - eapply contains_join; [|apply contains_refl]. simpl; tauto.
  - eapply contains_join; [|apply contains_refl]. simpl; tauto.
Qed.

End HandlerMore.

(** The record of the example with its attributes swapped. *)
Lemma handle_ignores_attribute_order_witness :
  Logging.plain_Handle
    {| Logging.Time := 0; Logging.Message := "failed";
       Logging.Level := Logging.LevelError; Logging.PC := 0;
       Logging.attrs :=
         [ {| Logging.Key := "attempt"; Logging.Value := Logging.AnyInt 0 |};
           {| Logging.Key := "error"; Logging.Value := Logging.AnyError "boom" |} ] |}
    []
  = Logging.plain_Handle Logging.failed_record [].
Proof.
  apply (handle_ignores_attribute_order (fun _ s => s) (fun _ => "LEVEL")
           (fun _ => "[00:00:00.000]") (fun _ => ("logger.go", 0))
           Logging.plain_Sprint Logging.plain_Marshal Logging.failed_record).
  - apply perm_swap.
  - apply NoDup_ListNoDup. repeat constructor; simpl; intuition discriminate.
Defined.

(** ** The other version of the logger *)

(** X10: [replaceAttr] keeps the key, never leaves an error value behind,
    leaves every attribute that carries no error as it is, and applying it
    again changes nothing; the groups argument is ignored. *)
Theorem replaceAttr_removes_errors
  (groups groups' : list string) (a : Logging.Attr) :
  Logging.Key (LoggingKinds.replaceAttr groups a) = Logging.Key a
  /\ match Logging.Value (LoggingKinds.replaceAttr groups a) with
     | Logging.AnyError _ => False
     | _ => True
     end
  /\ match Logging.Value a with
     | Logging.AnyError msg =>
         Logging.Value (LoggingKinds.replaceAttr groups a) = Logging.AnyString msg
     | _ => LoggingKinds.replaceAttr groups a = a
     end
  /\ LoggingKinds.replaceAttr groups' (LoggingKinds.replaceAttr groups a)
     = LoggingKinds.replaceAttr groups a.
Proof.
  destruct a as [k v]. unfold LoggingKinds.replaceAttr.
  destruct v; cbn; repeat split; exact I.
Qed.

Lemma replaceAttr_key (groups : list string) (a : Logging.Attr) :
  Logging.Key (LoggingKinds.replaceAttr groups a) = Logging.Key a.
Proof. destruct a as [k v]. unfold LoggingKinds.replaceAttr. now destruct v. Qed.

Lemma kinds_on_attr_insert (a : Logging.Attr) (fields : gmap string Logging.any) :
  LoggingKinds.on_attr a fields
  = (<[Logging.Key a := Logging.Value (LoggingKinds.replaceAttr [] a)]> fields, true).
Proof. destruct a as [k v]. unfold LoggingKinds.on_attr. now destruct v. Qed.

Lemma kinds_fields_fold (l : list Logging.Attr) (fields : gmap string Logging.any) :
  Logging.Record_Attrs LoggingKinds.on_attr l fields
  = fold_left (fun m a => <[Logging.Key a := Logging.Value a]> m)
              (map (LoggingKinds.replaceAttr []) l) fields.
Proof.
  revert fields. induction l as [|a l IH]; intros fields; [reflexivity|].
  cbn [Logging.Record_Attrs map fold_left].
  now rewrite kinds_on_attr_insert, IH, replaceAttr_key.
Qed.

Lemma kinds_Record_Attrs_snoc (l : list Logging.Attr) (a : Logging.Attr)
  (fields : gmap string Logging.any) :
  Logging.Record_Attrs LoggingKinds.on_attr (l ++ [a])%list fields
  = <[Logging.Key a := Logging.Value (LoggingKinds.replaceAttr [] a)]>
      (Logging.Record_Attrs LoggingKinds.on_attr l fields).
Proof.
  revert fields. induction l as [|b l IH]; intros fields.
  - cbn [app Logging.Record_Attrs]. now rewrite kinds_on_attr_insert.
  - cbn [app Logging.Record_Attrs]. rewrite kinds_on_attr_insert. apply IH.
Qed.

(** X11: the handler of this version puts into the fields map what plain
    assignment of the attributes gives after [replaceAttr] has been applied
    to each of them: the pretty output shows the values the JSON handler
    built with [ReplaceAttr: replaceAttr] writes, and no error value is
    ever handed to the marshaller. *)
Theorem kinds_fields_are_replaced_attributes (r : Logging.slog_Record) :
  LoggingKinds.fields_of_record r
  = fold_left (fun m a => <[Logging.Key a := Logging.Value a]> m)
              (map (LoggingKinds.replaceAttr []) (Logging.attrs r)) ∅
  /\ forall k msg, LoggingKinds.fields_of_record r !! k <> Some (Logging.AnyError msg).
Proof.
  split; [apply kinds_fields_fold|].
  unfold LoggingKinds.fields_of_record.
  induction (Logging.attrs r) as [|a l IH] using rev_ind; intros k msg.
  - cbn. now rewrite lookup_empty.
  - rewrite kinds_Record_Attrs_snoc, lookup_insert.
    destruct (decide (Logging.Key a = k)); [|apply IH].
    destruct a as [ka v]. unfold LoggingKinds.replaceAttr.
    destruct v; cbn; congruence.
Qed.

Section TwoHandlers.
Context {E : Type}.
Context (colorize : Logging.Color -> string -> string).
Context (Level_String : Z -> string).
Context (Time_Format : Z -> string).
Context (frame_of : Z -> string * Z).
Context (fmt_Sprint : Logging.any -> string).
Context (json_MarshalIndent : gmap string Logging.any -> E + string).

Lemma same_in_both_stored (a : Logging.Attr) :
  LoggingKinds.same_in_both a = true ->
  Logging.stored fmt_Sprint a = Logging.Value (LoggingKinds.replaceAttr [] a).
Proof.
  destruct a as [k v].
  unfold LoggingKinds.same_in_both, Logging.stored, Logging.on_attr,
    LoggingKinds.replaceAttr.
  cbn [Logging.Key Logging.Value].
  destruct (String.eqb k "error"), v; cbn; rewrite ?lookup_insert_eq;
    intros H; try reflexivity; discriminate.
Qed.

Lemma not_same_in_both_stored (a : Logging.Attr) :
  LoggingKinds.same_in_both a = false ->
  Logging.stored fmt_Sprint a <> Logging.Value (LoggingKinds.replaceAttr [] a).
Proof.
  destruct a as [k v].
  unfold LoggingKinds.same_in_both, Logging.stored, Logging.on_attr,
    LoggingKinds.replaceAttr.
  cbn [Logging.Key Logging.Value].
  destruct (String.eqb k "error"), v; cbn; rewrite ?lookup_insert_eq;
    intros H; try discriminate.
Qed.

(** X12: the two versions of [Handle] differ only on errors under a key
    other than "error" (the one keeps the error value, the other its
    message) and on values under "error" that are neither an error nor a
    string (the one formats them, the other keeps them).  An attribute
    of any other shape is stored alike by both callbacks, one of these
    shapes is not; and on a record without such attributes both versions
    return and print the same. *)
Theorem handlers_agree_iff_no_stray_error
  (r : Logging.slog_Record) (out : list string) :
  (forall a fields,
      (Logging.on_attr fmt_Sprint a fields = LoggingKinds.on_attr a fields
       <-> LoggingKinds.same_in_both a = true))
  /\ (forallb LoggingKinds.same_in_both (Logging.attrs r) = true ->
      LoggingKinds.Handle colorize Level_String Time_Format frame_of fmt_Sprint
                          json_MarshalIndent r out
      = Logging.Handle colorize Level_String Time_Format frame_of fmt_Sprint
                       json_MarshalIndent r out).
Proof.
  split.
  - intros a fields. rewrite on_attr_insert, kinds_on_attr_insert. split.
    + intros H. destruct (LoggingKinds.same_in_both a) eqn:Hs; [reflexivity|].
      exfalso. apply (not_same_in_both_stored a Hs).
      apply (f_equal (fun x => x.1 !! Logging.Key a)) in H.
      cbn [fst] in H. rewrite !lookup_insert_eq in H. congruence.
    + intros Hs. now rewrite (same_in_both_stored a Hs).
  - intros Hall.
    assert (Hf : LoggingKinds.fields_of_record r = Logging.fields_of_record fmt_Sprint r).
    { unfold LoggingKinds.fields_of_record, Logging.fields_of_record.
      generalize (∅ : gmap string Logging.any).
      induction (Logging.attrs r) as [|a l IH]; intros m; [reflexivity|].
      cbn [forallb] in Hall. apply andb_prop in Hall as [Ha Hl].
      cbn [Logging.Record_Attrs].
      rewrite on_attr_insert, kinds_on_attr_insert, (same_in_both_stored a Ha).
      now apply IH. }
    unfold LoggingKinds.Handle, Logging.Handle. now rewrite Hf.
Qed.

End TwoHandlers.

(** The record of the example: an error under "error", an integer under
    another key. *)
Lemma handlers_agree_iff_no_stray_error_witness :
  LoggingKinds.Handle (fun _ s => s) (fun _ => "LEVEL") (fun _ => "[00:00:00.000]")
                      (fun _ => ("logger.go", 0)) Logging.plain_Sprint
                      Logging.plain_Marshal Logging.failed_record []
  = Logging.plain_Handle Logging.failed_record [].
Proof.
  apply (handlers_agree_iff_no_stray_error (fun _ s => s) (fun _ => "LEVEL")
           (fun _ => "[00:00:00.000]") (fun _ => ("logger.go", 0))
           Logging.plain_Sprint Logging.plain_Marshal Logging.failed_record []).
  reflexivity.
Defined.

Section StackFacts.
Import LoggingKinds.
Context (Frames : list Z -> list Frame).
Context (filepath_Base filepath_Dir : string -> string).
Context (filepath_Join : string -> string -> string).

(** X13: [marshalStack] returns nil exactly for an error without program
    counters, and otherwise one entry per frame, in order and with the
    frame's line, even when no frame can be resolved (an empty slice, not
    nil); so the group of [fmtErr] starts with [msg], the error's text,
    and has a second attribute, [trace], exactly when the error carries
    program counters. *)
Theorem fmtErr_has_trace_iff_callers (err : xerror) :
  (marshalStack Frames filepath_Base filepath_Dir filepath_Join err = None
   <-> err_StackTrace err = [])
  /\ match marshalStack Frames filepath_Base filepath_Dir filepath_Join err with
     | Some s =>
         length s = length (Frames (err_StackTrace err))
         /\ map sf_Line s = map Line (Frames (err_StackTrace err))
     | None => True
     end
  /\ hd_error (fmtErr Frames filepath_Base filepath_Dir filepath_Join err)
     = Some (slog_String "msg" (err_Error err))
  /\ ((exists frames,
         fmtErr Frames filepath_Base filepath_Dir filepath_Join err
         = [slog_String "msg" (err_Error err); slog_Any "trace" frames])
      <-> err_StackTrace err <> []).
Proof.
  unfold fmtErr, marshalStack. cbv zeta.
  destruct (err_StackTrace err) as [|pc trace]; cbn [length Nat.eqb].
  - split; [tauto|]. split; [exact I|]. split; [reflexivity|]. split.
    + intros (frames & H). discriminate H.
    + intros H. now destruct H.
  - split; [split; discriminate|]. split.
    + split; [apply length_map | now rewrite map_map].
    + split; [reflexivity|]. split; [discriminate|]. intros _. eexists. reflexivity.
Qed.

End StackFacts.

(** ** [Load] with the reference collaborators *)

Lemma decl_fill_field (f : Field) : decl (fill_field f) = decl f.
Proof.
  unfold fill_field. destruct (is_zero (val f)); [|reflexivity].
  now destruct (defaultTag (decl f)).
Qed.

Lemma fill_field_idem (f : Field) : fill_field (fill_field f) = fill_field f.
Proof.
  unfold fill_field at 2. destruct (is_zero (val f)) eqn:Hz.
  - destruct (defaultTag (decl f)) as [lit|] eqn:Hd.
    + unfold fill_field, set_val. cbn [val decl]. rewrite Hd, Hz.
      now destruct (is_zero (convert (Kind (decl f)) 64 lit).1).
    + unfold fill_field. now rewrite Hz, Hd.
  - unfold fill_field. now rewrite Hz.
Qed.

Lemma decode_field_decl (pre : string) (e : gmap string string) (f : Field) :
  decl (decode_field pre e f).1 = decl f.
Proof.
  unfold decode_field. destruct (e !! (pre ++ envTag (decl f))) as [[|a s]|];
    try reflexivity.
  now destruct (convert (Kind (decl f)) 32 (String a s)) as [v [c|]].
Qed.

(** The decoder's result for a field depends on the field's declaration
    only, apart from the value it leaves when it has nothing to store. *)
Lemma decode_field_same_decl (pre : string) (e : gmap string string) (f g : Field) :
  decl g = decl f ->
  (decode_field pre e g).2 = (decode_field pre e f).2
  /\ (decode_field pre e g).1
     = match e !! (pre ++ envTag (decl f)) with
       | None | Some EmptyString => g
       | Some s =>
           match convert (Kind (decl f)) 32 s with
           | (v, None) => (decode_field pre e f).1
           | (_, Some _) => g
           end
       end.
Proof.
  intros Hd. unfold decode_field. rewrite Hd.
  destruct (e !! (pre ++ envTag (decl f))) as [[|a s]|]; try (split; reflexivity).
  destruct (convert (Kind (decl f)) 32 (String a s)) as [v [c|]]; cbn [fst snd].
  - split; reflexivity.
  - split; [reflexivity|]. unfold set_val. now rewrite Hd.
Qed.

Lemma decode_field_idem (pre : string) (e : gmap string string) (f : Field) :
  decode_field pre e (decode_field pre e f).1 = decode_field pre e f.
Proof.
  destruct (decode_field_same_decl pre e f (decode_field pre e f).1
              (decode_field_decl pre e f)) as (H2 & H1).
  apply injective_projections; [|exact H2].
  rewrite H1. unfold decode_field.
  destruct (e !! (pre ++ envTag (decl f))) as [[|a s]|]; try reflexivity.
  now destruct (convert (Kind (decl f)) 32 (String a s)) as [v [c|]].
Qed.

Lemma decode_after_fill (pre : string) (e : gmap string string) (f : Field) :
  (decode_field pre e (fill_field (decode_field pre e f).1)).2 = (decode_field pre e f).2
  /\ fill_field (decode_field pre e (fill_field (decode_field pre e f).1)).1
     = fill_field (decode_field pre e f).1.
Proof.
  destruct (decode_field_same_decl pre e f (fill_field (decode_field pre e f).1))
    as (H2 & H1).
  { now rewrite decl_fill_field, decode_field_decl. }
  split; [exact H2|]. rewrite H1.
  destruct (e !! (pre ++ envTag (decl f))) as [[|a s]|];
    try apply fill_field_idem.
  destruct (convert (Kind (decl f)) 32 (String a s)) as [v [c|]];
    [apply fill_field_idem | reflexivity].
Qed.

Lemma inject_present (m : gmap string string) (kv : string * string) :
  is_Some (m !! kv.1) -> inject m kv = m.
Proof. intros [v Hv]. unfold inject. now rewrite Hv. Qed.

Lemma inject_keeps (m : gmap string string) (kv : string * string) (k : string) :
  is_Some (m !! k) -> is_Some (inject m kv !! k).
Proof.
  intros H. unfold inject. destruct (m !! kv.1) eqn:E; [exact H|].
  rewrite lookup_insert. destruct (decide (kv.1 = k)); [eauto | exact H].
Qed.

Lemma fold_inject_keeps (entries : list (string * string)) (m : gmap string string)
  (k : string) :
  is_Some (m !! k) -> is_Some (fold_left inject entries m !! k).
Proof.
  revert m. induction entries as [|kv entries IH]; intros m H; [exact H|].
  cbn [fold_left]. apply IH, inject_keeps, H.
Qed.

Lemma fold_inject_idem (entries : list (string * string)) (m : gmap string string) :
  fold_left inject entries (fold_left inject entries m) = fold_left inject entries m.
Proof.
  assert (Hfix : forall l (n : gmap string string),
             Forall (fun kv => is_Some (n !! kv.1)) l -> fold_left inject l n = n).
  { induction l as [|kv l IH]; intros n Hn; [reflexivity|].
    apply Forall_cons in Hn as [Hkv Hl]. cbn [fold_left].
    rewrite inject_present by exact Hkv. now apply IH. }
  apply Hfix. revert m. induction entries as [|kv entries IH]; intros m.
  - constructor.
  - cbn [fold_left]. constructor; [|apply IH].
    apply fold_inject_keeps. unfold inject.
    destruct (m !! kv.1) eqn:E; [eauto|]. rewrite lookup_insert_eq. eauto.
Qed.

Lemma Load_error (c : Collaborators) (d : Dest) (opts : list Option) (p : Proc) :
  (Load c d opts p).1
  = match env_for_decode c (applyOptions opts) p with
    | inl e => Some e
    | inr e1 =>
        match env_ParseWithOptions c d (prefix (applyOptions opts)) e1 with
        | (_, Some e) => Some e
        | (d1, None) =>
            if skipValid (applyOptions opts) then None
            else validator_Struct c (defaults_SetDefaults c d1)
        end
    end.
Proof.
  rewrite Load_steps. cbv zeta.
  destruct (env_for_decode c (applyOptions opts) p) as [e|e1]; [reflexivity|].
  destruct (env_ParseWithOptions c d (prefix (applyOptions opts)) e1) as [d1 [e|]];
    [reflexivity|].
  now destruct (skipValid (applyOptions opts)).
Qed.

Lemma env_for_decode_again (o : configOptions) (p p1 : Proc) :
  dotenv p1 = dotenv p ->
  environ p1 = match env_for_decode reference o p with
               | inl _ => environ p
               | inr e1 => e1
               end ->
  env_for_decode reference o p1 = env_for_decode reference o p.
Proof.
  unfold env_for_decode. intros Hf He. rewrite Hf.
  destruct (skipEnv o); [now rewrite He|].
  cbn [godotenv_Load reference] in *. unfold ref_godotenv_Load in *.
  destruct (dotenv p) as [|entries|msg]; try reflexivity.
  rewrite He. now rewrite fold_inject_idem.
Qed.

Lemma parse_again (d : Dest) (pre : string) (e : gmap string string) :
  ref_ParseWithOptions (ref_ParseWithOptions d pre e).1 pre e
  = ref_ParseWithOptions d pre e.
Proof.
  destruct d as [|t fs|t fs|]; try reflexivity.
  cbn [ref_ParseWithOptions fst].
  replace (map (decode_field pre e) (map fst (map (decode_field pre e) fs)))
    with (map (decode_field pre e) fs); [reflexivity|].
  rewrite !map_map. apply map_ext. intros f. now rewrite decode_field_idem.
Qed.

Lemma parse_after_fill (d : Dest) (pre : string) (e : gmap string string) :
  (ref_ParseWithOptions (ref_SetDefaults (ref_ParseWithOptions d pre e).1) pre e).2
  = (ref_ParseWithOptions d pre e).2
  /\ ref_SetDefaults
       (ref_ParseWithOptions (ref_SetDefaults (ref_ParseWithOptions d pre e).1) pre e).1
     = ref_SetDefaults (ref_ParseWithOptions d pre e).1.
Proof.
  destruct d as [|t fs|t fs|]; try (split; reflexivity).
  cbn [ref_ParseWithOptions ref_SetDefaults fst snd].
  assert (H : omap snd (map (decode_field pre e)
                          (map fill_field (map fst (map (decode_field pre e) fs))))
              = omap snd (map (decode_field pre e) fs)
              /\ map fill_field
                   (map fst (map (decode_field pre e)
                               (map fill_field (map fst (map (decode_field pre e) fs)))))
                 = map fill_field (map fst (map (decode_field pre e) fs))).
  { induction fs as [|f fs [IH1 IH2]]; [split; reflexivity|].
    destruct (decode_after_fill pre e f) as (H2 & H1).
    cbn [map]. split.
    - cbn [omap list_omap]. rewrite H2.
      destruct (decode_field pre e f).2; [f_equal|]; exact IH1.
    - now rewrite H1, IH2. }
  destruct H as (H1 & H2). rewrite H1, H2. split; reflexivity.
Qed.

(** X14: with the imported packages as the reference collaborators model
    them, calling [Load] a second time, on the destination and the process
    the first call left, returns the same error and changes neither the
    destination nor the environment; [BenchmarkLoad] calls [Load] on one
    struct over and over. *)
Theorem load_again_changes_nothing (d : Dest) (opts : list Option) (p : Proc) :
  (Load reference (Load reference d opts p).2.2 opts (Load reference d opts p).2.1).1
  = (Load reference d opts p).1
  /\ (Load reference (Load reference d opts p).2.2 opts (Load reference d opts p).2.1).2.2
     = (Load reference d opts p).2.2
  /\ environ
       (Load reference (Load reference d opts p).2.2 opts (Load reference d opts p).2.1).2.1
     = environ (Load reference d opts p).2.1.
Proof.
  destruct (Load_frame reference d opts p) as (Hf & _ & He & Hd).
  pose proof (env_for_decode_again (applyOptions opts) p
                (Load reference d opts p).2.1 Hf He) as Henv.
  destruct (Load_frame reference (Load reference d opts p).2.2 opts
              (Load reference d opts p).2.1) as (_ & _ & He2 & Hd2).
  rewrite (Load_error reference (Load reference d opts p).2.2), He2, Hd2, Henv.
  rewrite (Load_error reference d opts p), He, Hd.
  clear Hf He Hd He2 Hd2 Henv.
  destruct (env_for_decode reference (applyOptions opts) p) as [e|e1];
    [repeat split; reflexivity|].
  change (env_ParseWithOptions reference) with ref_ParseWithOptions.
  change (defaults_SetDefaults reference) with ref_SetDefaults.
  change (validator_Struct reference) with ref_validator_Struct.
  pose proof (parse_again d (prefix (applyOptions opts)) e1) as Ha.
  destruct (parse_after_fill d (prefix (applyOptions opts)) e1) as (Hb2 & Hb1).
  destruct (ref_ParseWithOptions d (prefix (applyOptions opts)) e1) as [d1 [e|]] eqn:Hp;
    cbn [fst snd] in *.
  - rewrite Ha. repeat split; reflexivity.
  - destruct (ref_ParseWithOptions (ref_SetDefaults d1) (prefix (applyOptions opts)) e1)
      as [d1' r'] eqn:Hp'.
    cbn [fst snd] in *. subst r'. rewrite Hb1. repeat split; reflexivity.
Qed.

Lemma convert_bool_value (s : string) (x : value) :
  convert KBool 32 s = (x, None) -> x = VBool true \/ x = VBool false.
Proof.
  cbn [convert]. destruct (strconv_ParseBool s) as [[|] e]; intros [= <- _]; auto.
Qed.

(** X15: with the imported packages as the reference collaborators model
    them, a successful [Load] into [logging.Config] always leaves [JSON]
    true and [Level] non-empty, whatever the environment says: [JSON=false]
    decodes to the zero value of the field, which the injector then
    replaces by the default [true]. *)
Theorem logging_config_json_stays_true (opts : list Option) (p : Proc) :
  (Load reference LoggingConfig opts p).1 = None ->
  field_value "JSON" (Load reference LoggingConfig opts p).2.2 = Some (VBool true)
  /\ exists s, field_value "Level" (Load reference LoggingConfig opts p).2.2
               = Some (VString s)
               /\ s <> EmptyString.
Proof.
  intros Hnil.
  destruct (Load_nil_steps _ _ _ _ Hnil) as (e1 & d1 & He & Hd).
  destruct (Load_frame reference LoggingConfig opts p) as (_ & _ & _ & ->).
  rewrite He, Hd. clear Hnil He.
  cbn [env_ParseWithOptions reference ref_ParseWithOptions LoggingConfig] in Hd.
  destruct (omap snd (map (decode_field (prefix (applyOptions opts)) e1)
                        (map zero_field [LevelDecl; JSONDecl])))
    as [|pe errs] eqn:Herrs; [|discriminate].
  injection Hd as <-.
  pose proof (resolve_field (prefix (applyOptions opts)) e1 (zero_field LevelDecl)
                eq_refl
                (no_decode_errors _ _ _ _ Herrs (or_introl eq_refl)))
    as (HdL & HnL & HsL & _).
  pose proof (resolve_field (prefix (applyOptions opts)) e1 (zero_field JSONDecl)
                eq_refl
                (no_decode_errors _ _ _ _ Herrs (or_intror (or_introl eq_refl))))
    as (HdJ & HnJ & HsJ & HzJ).
  pose proof (no_decode_errors _ _ _ (zero_field JSONDecl) Herrs
                (or_intror (or_introl eq_refl))) as HeJ.
  cbv zeta in *.
  unfold field_value.
  cbn [defaults_SetDefaults reference ref_SetDefaults fields_of map find_field].
  rewrite HdL, HdJ. cbn [decl zero_field Name LevelDecl JSONDecl String.eqb Ascii.eqb Bool.eqb].
  split.
  - f_equal.
    destruct (e1 !! (prefix (applyOptions opts) ++ envTag (decl (zero_field JSONDecl))))
      as [s|] eqn:El; [|apply HnJ; now left].
    destruct s as [|a s]; [apply HnJ; now right|].
    unfold decode_field in HeJ. rewrite El in HeJ.
    destruct (convert (Kind (decl (zero_field JSONDecl))) 32 (String a s))
      as [x [c|]] eqn:Hc; [discriminate|].
    destruct (convert_bool_value _ _ Hc) as [-> | ->].
    + apply (HsJ (String a s) (VBool true) eq_refl); [discriminate | exact Hc | reflexivity].
    + apply (HzJ (String a s) (VBool false) eq_refl); [exact Hc | reflexivity].
  - destruct (e1 !! (prefix (applyOptions opts) ++ envTag (decl (zero_field LevelDecl))))
      as [s|] eqn:El.
    + destruct s as [|a s].
      * exists "info". split; [f_equal; apply HnL; now right | discriminate].
      * exists (String a s). split; [|discriminate]. f_equal.
        apply (HsL (String a s) (VString (String a s)) eq_refl);
          [discriminate | reflexivity | reflexivity].
    + exists "info". split; [f_equal; apply HnL; now left | discriminate].
Qed.

(** [JSON=false] in the environment, and [JSON] is true after the call. *)
Lemma logging_config_json_stays_true_witness :
  field_value "JSON"
    (Load reference LoggingConfig (map option_of [OSkipEnvFile])
          (proc0 [("JSON", "false")] Absent)).2.2
  = Some (VBool true).
Proof.
  apply (logging_config_json_stays_true (map option_of [OSkipEnvFile])
           (proc0 [("JSON", "false")] Absent)).
  vm_compute. reflexivity.
Defined.

(** ** The colour of the level *)

Section LevelColour.
Import Logging.
Context {E : Type}.
Context (Level_String : Z -> string).
Context (Time_Format : Z -> string).
Context (frame_of : Z -> string * Z).
Context (fmt_Sprint : any -> string).
Context (json_MarshalIndent : gmap string any -> E + string).

(** X16: only the four levels [Debug], [Info], [Warn] and [Error] are
    coloured.  For a record of any other level (such as [Info+1]) the
    output does not depend on how magenta, blue, yellow and red are
    rendered: two colour functions that agree on cyan, green and white
    give the same line. *)
Theorem other_levels_are_not_coloured
  (colorize colorize' : Color -> string -> string) (r : slog_Record) (out : list string) :
  Level r <> LevelDebug -> Level r <> LevelInfo ->
  Level r <> LevelWarn -> Level r <> LevelError ->
  (forall s, colorize' Cyan s = colorize Cyan s) ->
  (forall s, colorize' Green s = colorize Green s) ->
  (forall s, colorize' White s = colorize White s) ->
  Handle colorize' Level_String Time_Format frame_of fmt_Sprint json_MarshalIndent r out
  = Handle colorize Level_String Time_Format frame_of fmt_Sprint json_MarshalIndent r out.
Proof.
  intros Hd Hi Hw He Hc Hg Hwh. unfold Handle.
  apply Z.eqb_neq in Hd, Hi, Hw, He. rewrite Hd, Hi, Hw, He.
  destruct (json_MarshalIndent (fields_of_record fmt_Sprint r)) as [err|b];
    [reflexivity|].
  rewrite Hc, Hwh. destruct (PC r =? 0); [reflexivity|].
  destruct (frame_of (PC r)) as [file line]. now rewrite !Hg.
Qed.

End LevelColour.

(** A record at level [Info+1], with colours that differ on red only. *)
Lemma other_levels_are_not_coloured_witness :
  Logging.Handle
    (fun c s => match c with Logging.Red => "<red>" ++ s | _ => s end)
    (fun _ => "INFO+1") (fun _ => "[00:00:00.000]") (fun _ => ("logger.go", 0))
    Logging.plain_Sprint Logging.plain_Marshal
    {| Logging.Time := 0; Logging.Message := "note"; Logging.Level := 1;
       Logging.PC := 0; Logging.attrs := [] |} []
  = Logging.Handle (fun _ s => s)
      (fun _ => "INFO+1") (fun _ => "[00:00:00.000]") (fun _ => ("logger.go", 0))
      Logging.plain_Sprint Logging.plain_Marshal
      {| Logging.Time := 0; Logging.Message := "note"; Logging.Level := 1;
         Logging.PC := 0; Logging.attrs := [] |} [].
Proof.
  apply (other_levels_are_not_coloured (fun _ => "INFO+1") (fun _ => "[00:00:00.000]")
           (fun _ => ("logger.go", 0)) Logging.plain_Sprint Logging.plain_Marshal
           (fun _ s => s)
           (fun c s => match c with Logging.Red => "<red>" ++ s | _ => s end));
    try discriminate; reflexivity.
Defined.
